(** * The socket server of the chat application (server/socket/index.js)

    A shallow embedding of the connection handler and of the five event
    handlers it registers, with the persistent store, the presence set and
    the fan-out channel as explicit state.  Every [await] of the source is
    a node of the handler's program, so that handlers can be run to
    completion, aborted by a store failure, or interleaved at their
    suspension points. *)

From Stdlib Require Import String List Arith Bool Lia Permutation Sorted.
Import ListNotations.
Local Open Scope string_scope.
Local Open Scope nat_scope.
Local Open Scope list_scope.

(** ** Data model *)

(** User ids travel as strings ([user._id.toString()], event payloads). *)
Definition UserId := string.
(** Ids of conversation and message documents. *)
Definition ObjectId := nat.
Definition SocketId := nat.

Record User := mkUser {
  user_id : UserId;
  name : string;
  email : string;
  profile_pic : string;
  password : option string   (* [None] after [.select('-password')] *)
}.

(** Modelled from the spec: the schemas (models/ConversationModel.js)
    are not in the sources at hand.  From the handlers: the fields they
    read and write.  From the spec: a message has a seen flag that is off
    when the message is created, and a conversation has a last-updated
    timestamp that creation and every append set. *)
Record Message := mkMessage {
  msg_id : ObjectId;
  text : option string;
  imageUrl : option string;
  videoUrl : option string;
  msgByUserId : UserId;
  seen : bool
}.

Record Conversation := mkConversation {
  conv_id : ObjectId;
  sender : UserId;
  receiver : UserId;
  messages : list ObjectId;
  updatedAt : nat
}.

(** The three collections in their natural (insertion) order, the store's
    clock (one tick per write) and the next fresh document id. *)
Record Store := mkStore {
  users : list User;
  conversations : list Conversation;
  messageDocs : list Message;
  clock : nat;
  nextId : nat
}.

(** Payload of the 'new message' event. *)
Record NewMessage := mkNewMessage {
  data_sender : UserId;
  data_receiver : UserId;
  data_text : option string;
  data_imageUrl : option string;
  data_videoUrl : option string;
  data_msgByUserId : UserId
}.

(** Payload of 'message-user' (lines 58-64). *)
Record UserPayload := mkUserPayload {
  pl_id : UserId;
  pl_name : string;
  pl_email : string;
  pl_profile_pic : string;
  online : bool
}.

(** Modelled from the spec: the ConversationSummary that the helper
    getConversation (helpers/getConversation.js, not in the sources at
    hand) returns: the peer identity, the peer's display attributes, the
    peer's online flag and the ordered messages of the conversation. *)
Record ConversationSummary := mkSummary {
  sum_conv : ObjectId;
  sum_peer : UserId;
  sum_peer_profile : option User;
  sum_online : bool;
  sum_messages : list Message;
  sum_updatedAt : nat
}.

(** ** Store queries and updates *)

(** The [$or] filter of lines 68-71, 86-89 and 146-149. *)
Definition pair_match (a b : UserId) (c : Conversation) : bool :=
  (String.eqb (sender c) a && String.eqb (receiver c) b)
  || (String.eqb (sender c) b && String.eqb (receiver c) a).

(** Insertion of a document into a list ordered by [updatedAt] descending,
    in front of the documents that are not more recent. *)
Fixpoint insert_desc (c : Conversation) (l : list Conversation) : list Conversation :=
  match l with
  | [] => [c]
  | d :: l' => if updatedAt d <=? updatedAt c then c :: d :: l' else d :: insert_desc c l'
  end.

(** [.sort({ updatedAt: -1 })]; documents with equal timestamps keep their
    natural order. *)
Definition sort_desc (l : list Conversation) : list Conversation :=
  fold_right insert_desc [] l.

Definition findMessage (ms : list Message) (i : ObjectId) : option Message :=
  find (fun m => msg_id m =? i) ms.

(** [.populate('messages')]: the documents of the listed ids, in the
    order of the list; an id without a document yields nothing. *)
Definition populate (ms : list Message) (ids : list ObjectId) : list Message :=
  flat_map (fun i => match findMessage ms i with Some m => [m] | None => [] end) ids.

Definition select_no_password (u : User) : User :=
  mkUser (user_id u) (name u) (email u) (profile_pic u) None.

(** [UserModel.findById(id).select('-password')]. *)
Definition findUserById (s : Store) (i : UserId) : option User :=
  option_map select_no_password (find (fun u => String.eqb (user_id u) i) (users s)).

(** [ConversationModel.findOne({$or: ...})], no sort: first match in
    natural order. *)
Definition findOneConversation (s : Store) (a b : UserId) : option Conversation :=
  find (pair_match a b) (conversations s).

(** [ConversationModel.findOne({$or: ...}).populate('messages')
      .sort({ updatedAt: -1 })]: the most recently updated match, with
    its messages. *)
Definition findOneConversationLatest (s : Store) (a b : UserId)
  : option (Conversation * list Message) :=
  match sort_desc (filter (pair_match a b) (conversations s)) with
  | c :: _ => Some (c, populate (messageDocs s) (messages c))
  | [] => None
  end.

(** [ConversationModel.findById(id).populate('messages')]. *)
Definition findConversationById (s : Store) (i : ObjectId)
  : option (Conversation * list Message) :=
  match find (fun c => conv_id c =? i) (conversations s) with
  | Some c => Some (c, populate (messageDocs s) (messages c))
  | None => None
  end.

(** [new ConversationModel({sender, receiver}).save()]. *)
Definition saveConversation (s : Store) (a b : UserId) : Conversation * Store :=
  let c := mkConversation (nextId s) a b [] (clock s) in
  (c, mkStore (users s) (conversations s ++ [c]) (messageDocs s)
              (S (clock s)) (S (nextId s))).

(** [new MessageModel({...}).save()]; a new message is not yet seen. *)
Definition saveMessage (s : Store) (d : NewMessage) : Message * Store :=
  let m := mkMessage (nextId s) (data_text d) (data_imageUrl d) (data_videoUrl d)
                     (data_msgByUserId d) false in
  (m, mkStore (users s) (conversations s) (messageDocs s ++ [m])
              (S (clock s)) (S (nextId s))).

Definition push_message (i mid : ObjectId) (now : nat) (c : Conversation) : Conversation :=
  if conv_id c =? i
  then mkConversation (conv_id c) (sender c) (receiver c) (messages c ++ [mid]) now
  else c.

(** [ConversationModel.findByIdAndUpdate(id, {$push: {messages: mid}})]. *)
Definition pushMessage (s : Store) (i mid : ObjectId) : Store :=
  mkStore (users s) (map (push_message i mid (clock s)) (conversations s))
          (messageDocs s) (S (clock s)) (nextId s).

Definition seen_filter (ids : list ObjectId) (author : UserId) (m : Message) : bool :=
  existsb (Nat.eqb (msg_id m)) ids && String.eqb (msgByUserId m) author.

Definition set_seen (m : Message) : Message :=
  mkMessage (msg_id m) (text m) (imageUrl m) (videoUrl m) (msgByUserId m) true.

(** [MessageModel.updateMany({_id: {$in: ids}, msgByUserId: author},
      {$set: {seen: true}})]: the number of documents modified and the
    new store. *)
Definition updateManySeen (s : Store) (ids : list ObjectId) (author : UserId)
  : nat * Store :=
  (length (filter (fun m => seen_filter ids author m && negb (seen m)) (messageDocs s)),
   mkStore (users s) (conversations s)
           (map (fun m => if seen_filter ids author m then set_seen m else m)
                (messageDocs s))
           (clock s) (nextId s)).

Definition involves (u : UserId) (c : Conversation) : bool :=
  String.eqb (sender c) u || String.eqb (receiver c) u.

Definition peer_of (u : UserId) (c : Conversation) : UserId :=
  if String.eqb (sender c) u then receiver c else sender c.

Definition summarize (s : Store) (presence : list UserId) (u : UserId)
  (c : Conversation) : ConversationSummary :=
  let p := peer_of u c in
  mkSummary (conv_id c) p (findUserById s p)
            (existsb (String.eqb p) presence)
            (populate (messageDocs s) (messages c)) (updatedAt c).

(** Modelled from the spec: getConversation (helpers/getConversation.js is
    not in the sources at hand), the spec's summariesFor: all conversations
    involving the identity, ordered by last-updated descending, the peer's
    online flag read from the presence set at the moment of computation. *)
Definition getConversation (s : Store) (presence : list UserId) (u : UserId)
  : list ConversationSummary :=
  map (summarize s presence u) (sort_desc (filter (involves u) (conversations s))).

(** ** Process state: sockets, presence set, fan-out channel *)

(** A server-side socket: its id, whether the connection is open, the
    rooms it joined and the listeners registered on it, each with the
    [userId] its closure captured. *)
Record Socket := mkSocket {
  sock_id : SocketId;
  connected : bool;
  rooms : list UserId;
  listeners : list (string * UserId)
}.

Inductive Target :=
| ToAll                      (* io.emit *)
| ToRoom (room : UserId)     (* io.to(room).emit *)
| ToSocket (sid : SocketId). (* socket.emit *)

Inductive Payload :=
| POnlineUsers (l : list UserId)
| PUser (p : UserPayload)
| PMessages (ms : list Message)
| PConversations (cs : list ConversationSummary).

Inductive Write :=
| SavedConversation (i : ObjectId)
| SavedMessage (i : ObjectId)
| PushedMessage (conv mid : ObjectId)
| UpdatedSeen (modified : nat).

(** What a handler does to the outside, in the order it does it. *)
Inductive Effect :=
| Wrote (wr : Write)
| Emitted (t : Target) (ev : string) (p : Payload)
| Logged (line : string).

Record World := mkWorld {
  store : Store;
  onlineUsers : list UserId;   (* the module-level [Set], in insertion order *)
  sockets : list Socket;
  trace : list Effect
}.

Definition with_store (w : World) (s : Store) : World :=
  mkWorld s (onlineUsers w) (sockets w) (trace w).

Definition with_online (w : World) (l : list UserId) : World :=
  mkWorld (store w) l (sockets w) (trace w).

Definition with_sockets (w : World) (l : list Socket) : World :=
  mkWorld (store w) (onlineUsers w) l (trace w).

Definition record_effect (w : World) (e : Effect) : World :=
  mkWorld (store w) (onlineUsers w) (sockets w) (trace w ++ [e]).

Definition is_emission (e : Effect) : bool :=
  match e with Emitted _ _ _ => true | _ => false end.

Definition is_write (e : Effect) : bool :=
  match e with Wrote _ => true | _ => false end.

(** The emissions of a trace, oldest first. *)
Definition emissions (tr : list Effect) : list Effect := filter is_emission tr.

(** [Set.prototype.add]: an element already present stays where it is. *)
Definition set_add (u : UserId) (l : list UserId) : list UserId :=
  if existsb (String.eqb u) l then l else l ++ [u].

(** [Set.prototype.delete]. *)
Definition set_delete (u : UserId) (l : list UserId) : list UserId :=
  filter (fun v => negb (String.eqb u v)) l.

(** [Set.prototype.has]. *)
Definition set_has (u : UserId) (l : list UserId) : bool :=
  existsb (String.eqb u) l.

Definition update_socket (sid : SocketId) (f : Socket -> Socket) (l : list Socket)
  : list Socket :=
  map (fun s => if sock_id s =? sid then f s else s) l.

(** A socket that disconnects leaves all its rooms; its listeners stay
    on the object. *)
Definition sock_close (s : Socket) : Socket :=
  mkSocket (sock_id s) false [] (listeners s).

(** [socket.join(room)]; a socket that is no longer connected joins
    nothing. *)
Definition sock_join (r : UserId) (s : Socket) : Socket :=
  if connected s
  then mkSocket (sock_id s) true (rooms s ++ [r]) (listeners s)
  else s.

Definition sock_on (ev : string) (u : UserId) (s : Socket) : Socket :=
  mkSocket (sock_id s) (connected s) (rooms s) (listeners s ++ [(ev, u)]).

(** ** Handler programs *)

(** Calls that the source awaits: the handler is suspended until the
    result arrives, and the call may fail. *)
Inductive AsyncOp : Type -> Type :=
| GetUserDetailsFromToken (token : string) : AsyncOp (option User)
| UserFindById (i : UserId) : AsyncOp (option User)
| ConversationFindOne (a b : UserId) : AsyncOp (option Conversation)
| ConversationFindOneLatest (a b : UserId) : AsyncOp (option (Conversation * list Message))
| ConversationSave (a b : UserId) : AsyncOp Conversation
| MessageSave (d : NewMessage) : AsyncOp Message
| ConversationPush (i mid : ObjectId) : AsyncOp unit
| ConversationFindById (i : ObjectId) : AsyncOp (option (Conversation * list Message))
| MessageUpdateManySeen (ids : list ObjectId) (author : UserId) : AsyncOp nat
| GetConversation (u : UserId) : AsyncOp (list ConversationSummary).

(** Calls that return at once. *)
Inductive SyncOp : Type -> Type :=
| SocketDisconnect (sid : SocketId) : SyncOp unit
| SocketJoin (sid : SocketId) (room : UserId) : SyncOp unit
| SocketOn (sid : SocketId) (ev : string) (closure : UserId) : SyncOp unit
| SocketEmit (sid : SocketId) (ev : string) (p : Payload) : SyncOp unit
| IoEmit (ev : string) (p : Payload) : SyncOp unit
| IoToEmit (room : UserId) (ev : string) (p : Payload) : SyncOp unit
| OnlineAdd (u : UserId) : SyncOp unit
| OnlineDelete (u : UserId) : SyncOp unit
| OnlineHas (u : UserId) : SyncOp bool
| OnlineArray : SyncOp (list UserId)
| ConsoleLog (line : string) : SyncOp unit
| ConsoleError (line : string) : SyncOp unit.

(** The body of an async function: a tree of calls, each continued with
    the value the call returns. *)
Inductive Prog (A : Type) : Type :=
| Ret (a : A)
| Do (X : Type) (op : SyncOp X) (k : X -> Prog A)
| Await (X : Type) (op : AsyncOp X) (k : X -> Prog A).

Arguments Ret {A} a.
Arguments Do {A X} op k.
Arguments Await {A X} op k.

Fixpoint bind {A B : Type} (p : Prog A) (f : A -> Prog B) : Prog B :=
  match p with
  | Ret a => f a
  | Do op k => Do op (fun x => bind (k x) f)
  | Await op k => Await op (fun x => bind (k x) f)
  end.

Definition call {X : Type} (op : SyncOp X) : Prog X := Do op (fun x => Ret x).
Definition await {X : Type} (op : AsyncOp X) : Prog X := Await op (fun x => Ret x).

Declare Scope prog_scope.
Delimit Scope prog_scope with prog.
Notation "x <- p ;; q" := (bind p (fun x => q))
  (at level 61, p at next level, right associativity) : prog_scope.
Notation "p ;; q" := (bind p (fun _ => q))
  (at level 61, right associativity) : prog_scope.
Local Open Scope prog_scope.

(** [try { body } catch (error) { recover }]. *)
Record Handler := mkHandler {
  body : Prog unit;
  recover : Prog unit
}.

Definition messages_or_empty (c : option (Conversation * list Message)) : list Message :=
  match c with Some (_, ms) => ms | None => [] end.

(** Lines 53-80. *)
Definition on_message_page (sid : SocketId) (userId targetUserId : UserId) : Handler :=
  mkHandler
    (targetUser <- await (UserFindById targetUserId) ;;
     match targetUser with
     | None => Ret tt
     | Some tu =>
         isOnline <- call (OnlineHas targetUserId) ;;
         call (SocketEmit sid "message-user"
                 (PUser (mkUserPayload (user_id tu) (name tu) (email tu)
                                       (profile_pic tu) isOnline))) ;;
         conversation <- await (ConversationFindOneLatest userId targetUserId) ;;
         call (SocketEmit sid "message" (PMessages (messages_or_empty conversation)))
     end)
    (call (ConsoleError "Error in message-page event")).

(** Lines 83-130. *)
Definition on_new_message (sid : SocketId) (userId : UserId) (data : NewMessage) : Handler :=
  mkHandler
    (found <- await (ConversationFindOne (data_sender data) (data_receiver data)) ;;
     conversation <- match found with
                     | Some c => Ret c
                     | None => await (ConversationSave (data_sender data) (data_receiver data))
                     end ;;
     message <- await (MessageSave data) ;;
     await (ConversationPush (conv_id conversation) (msg_id message)) ;;
     updatedConversation <- await (ConversationFindById (conv_id conversation)) ;;
     call (IoToEmit (data_sender data) "message"
             (PMessages (messages_or_empty updatedConversation))) ;;
     call (IoToEmit (data_receiver data) "message"
             (PMessages (messages_or_empty updatedConversation))) ;;
     senderConversations <- await (GetConversation (data_sender data)) ;;
     receiverConversations <- await (GetConversation (data_receiver data)) ;;
     call (IoToEmit (data_sender data) "conversation" (PConversations senderConversations)) ;;
     call (IoToEmit (data_receiver data) "conversation" (PConversations receiverConversations)))
    (call (ConsoleError "Error in new message event")).

(** Lines 133-140. *)
Definition on_sidebar (sid : SocketId) (userId currentUserId : UserId) : Handler :=
  mkHandler
    (conversations <- await (GetConversation currentUserId) ;;
     call (SocketEmit sid "conversation" (PConversations conversations)))
    (call (ConsoleError "Error in sidebar event")).

(** Lines 143-166. *)
Definition on_seen (sid : SocketId) (userId targetUserId : UserId) : Handler :=
  mkHandler
    (conversation <- await (ConversationFindOne userId targetUserId) ;;
     let messageIds := match conversation with Some c => messages c | None => [] end in
     await (MessageUpdateManySeen messageIds targetUserId) ;;
     senderConversations <- await (GetConversation userId) ;;
     receiverConversations <- await (GetConversation targetUserId) ;;
     call (IoToEmit userId "conversation" (PConversations senderConversations)) ;;
     call (IoToEmit targetUserId "conversation" (PConversations receiverConversations)))
    (call (ConsoleError "Error in seen event")).

(** Lines 169-173; no try block. *)
Definition on_disconnect (sid : SocketId) (userId : UserId) : Handler :=
  mkHandler
    (call (OnlineDelete userId) ;;
     call (ConsoleLog "User disconnected") ;;
     snapshot <- call OnlineArray ;;
     call (IoEmit "onlineUser" (POnlineUsers snapshot)))
    (Ret tt).

(** [!token] of line 30: an absent token and the empty string are falsy. *)
Definition falsy (token : option string) : bool :=
  match token with
  | None => true
  | Some t => String.eqb t ""
  end.

Definition token_string (token : option string) : string :=
  match token with Some t => t | None => "" end.

(** Lines 25-178.  The statements before the [try] (lines 26-34) contain
    no awaited call, so no failure can arise in them and they are part of
    [body]. *)
Definition on_connection (sid : SocketId) (token : option string) : Handler :=
  mkHandler
    (call (ConsoleLog "User connected") ;;
     if falsy token
     then call (ConsoleLog "No token provided, disconnecting user") ;;
          call (SocketDisconnect sid)
     else
       user <- await (GetUserDetailsFromToken (token_string token)) ;;
       match user with
       | None => call (ConsoleLog "Invalid token, disconnecting user") ;;
                 call (SocketDisconnect sid)
       | Some u =>
           let userId := user_id u in
           call (SocketJoin sid userId) ;;
           call (OnlineAdd userId) ;;
           snapshot <- call OnlineArray ;;
           call (IoEmit "onlineUser" (POnlineUsers snapshot)) ;;
           call (SocketOn sid "message-page" userId) ;;
           call (SocketOn sid "new message" userId) ;;
           call (SocketOn sid "sidebar" userId) ;;
           call (SocketOn sid "seen" userId) ;;
           call (SocketOn sid "disconnect" userId)
       end)
    (call (ConsoleError "Connection error") ;;
     call (SocketDisconnect sid)).

(** ** Running handlers *)

Inductive Outcome (A : Type) : Type :=
| Returned (a : A)
| Threw.

Arguments Returned {A} a.
Arguments Threw {A}.

Section Server.

(** helpers/getUserDetailsFromToken.js is not in the sources at hand: the
    verifier is a parameter, from a token to the user it identifies. *)
Variable getUserDetailsFromToken : string -> option User.

(** The awaited calls against the store; each write is recorded in the
    trace. *)
Definition exec_async {X : Type} (op : AsyncOp X) (w : World) : X * World :=
  match op in AsyncOp T return T * World with
  | GetUserDetailsFromToken token => (getUserDetailsFromToken token, w)
  | UserFindById i => (findUserById (store w) i, w)
  | ConversationFindOne a b => (findOneConversation (store w) a b, w)
  | ConversationFindOneLatest a b => (findOneConversationLatest (store w) a b, w)
  | ConversationSave a b =>
      let (c, s') := saveConversation (store w) a b in
      (c, record_effect (with_store w s') (Wrote (SavedConversation (conv_id c))))
  | MessageSave d =>
      let (m, s') := saveMessage (store w) d in
      (m, record_effect (with_store w s') (Wrote (SavedMessage (msg_id m))))
  | ConversationPush i mid =>
      (tt, record_effect (with_store w (pushMessage (store w) i mid))
                         (Wrote (PushedMessage i mid)))
  | ConversationFindById i => (findConversationById (store w) i, w)
  | MessageUpdateManySeen ids author =>
      let (n, s') := updateManySeen (store w) ids author in
      (n, record_effect (with_store w s') (Wrote (UpdatedSeen n)))
  | GetConversation u => (getConversation (store w) (onlineUsers w) u, w)
  end.

(** [socket.disconnect(true)] is called on lines 32, 40 and 176, where no
    listener is registered on the socket yet: it closes the socket and
    fires no handler. *)
Definition exec_sync {X : Type} (op : SyncOp X) (w : World) : X * World :=
  match op in SyncOp T return T * World with
  | SocketDisconnect sid => (tt, with_sockets w (update_socket sid sock_close (sockets w)))
  | SocketJoin sid room => (tt, with_sockets w (update_socket sid (sock_join room) (sockets w)))
  | SocketOn sid ev u => (tt, with_sockets w (update_socket sid (sock_on ev u) (sockets w)))
  | SocketEmit sid ev p => (tt, record_effect w (Emitted (ToSocket sid) ev p))
  | IoEmit ev p => (tt, record_effect w (Emitted ToAll ev p))
  | IoToEmit room ev p => (tt, record_effect w (Emitted (ToRoom room) ev p))
  | OnlineAdd u => (tt, with_online w (set_add u (onlineUsers w)))
  | OnlineDelete u => (tt, with_online w (set_delete u (onlineUsers w)))
  | OnlineHas u => (set_has u (onlineUsers w), w)
  | OnlineArray => (onlineUsers w, w)
  | ConsoleLog line => (tt, record_effect w (Logged line))
  | ConsoleError line => (tt, record_effect w (Logged line))
  end.

(** Runs a program to its end.  [fault = Some n] makes the awaited call
    number [n] (from 0) of this run fail: the call has no effect and the
    program is abandoned there. *)
Fixpoint run {A : Type} (p : Prog A) (fault : option nat) (w : World)
  : Outcome A * World :=
  match p with
  | Ret a => (Returned a, w)
  | Do op k => let (x, w') := exec_sync op w in run (k x) fault w'
  | Await op k =>
      match fault with
      | Some 0 => (Threw, w)
      | _ => let (x, w') := exec_async op w in run (k x) (option_map pred fault) w'
      end
  end.

(** A handler with its catch clause. *)
Definition exec_handler (h : Handler) (fault : option nat) (w : World) : World :=
  match run (body h) fault w with
  | (Returned _, w') => w'
  | (Threw, w') => snd (run (recover h) None w')
  end.

(** *** Suspension points *)

(** Runs the calls that return at once, up to the next awaited call. *)
Fixpoint advance {A : Type} (p : Prog A) (w : World) : Prog A * World :=
  match p with
  | Do op k => let (x, w') := exec_sync op w in advance (k x) w'
  | _ => (p, w)
  end.

(** Completes the awaited call a task is suspended on and runs the task
    up to its next awaited call. *)
Definition resume {A : Type} (p : Prog A) (w : World) : Prog A * World :=
  match p with
  | Await op k => let (x, w') := exec_async op w in advance (k x) w'
  | _ => advance p w
  end.

Fixpoint resume_nth (n : nat) (tasks : list (Prog unit)) (w : World)
  : list (Prog unit) * World :=
  match tasks, n with
  | [], _ => ([], w)
  | p :: rest, 0 => let (p', w') := resume p w in (p' :: rest, w')
  | p :: rest, S n' => let (rest', w') := resume_nth n' rest w in (p :: rest', w')
  end.

(** The handlers in flight, resumed one at a time in the order the
    schedule gives (the order in which the store answers). *)
Fixpoint interleave (schedule : list nat) (tasks : list (Prog unit)) (w : World)
  : list (Prog unit) * World :=
  match schedule with
  | [] => (tasks, w)
  | n :: schedule' =>
      let (tasks', w') := resume_nth n tasks w in interleave schedule' tasks' w'
  end.

Definition finished (p : Prog unit) : bool :=
  match p with Ret _ => true | _ => false end.

(** ** The server as a transition system *)

Inductive ClientEvent :=
| MessagePage (targetUserId : UserId)
| NewMessageEvent (data : NewMessage)
| Sidebar (currentUserId : UserId)
| Seen (targetUserId : UserId).

Inductive Input :=
| Connect (sid : SocketId) (token : option string)
| Receive (sid : SocketId) (ev : ClientEvent)
| Disconnect (sid : SocketId).

Definition event_name (ev : ClientEvent) : string :=
  match ev with
  | MessagePage _ => "message-page"
  | NewMessageEvent _ => "new message"
  | Sidebar _ => "sidebar"
  | Seen _ => "seen"
  end.

Definition handler_of (sid : SocketId) (userId : UserId) (ev : ClientEvent) : Handler :=
  match ev with
  | MessagePage t => on_message_page sid userId t
  | NewMessageEvent d => on_new_message sid userId d
  | Sidebar u => on_sidebar sid userId u
  | Seen t => on_seen sid userId t
  end.

Definition find_socket (sid : SocketId) (w : World) : option Socket :=
  find (fun s => sock_id s =? sid) (sockets w).

(** The [userId] captured by the listener registered for an event. *)
Definition listener (ev : string) (s : Socket) : option UserId :=
  option_map snd (find (fun l => String.eqb (fst l) ev) (listeners s)).

Definition new_socket (sid : SocketId) : Socket := mkSocket sid true [] [].

(** One input handled to its end; [fault] as in [run].  Socket ids are
    fresh, events reach open sockets only, and an event without a
    registered listener is dropped. *)
Definition server_step (i : Input) (fault : option nat) (w : World) : World :=
  match i with
  | Connect sid token =>
      match find_socket sid w with
      | Some _ => w
      | None => exec_handler (on_connection sid token) fault
                  (with_sockets w (sockets w ++ [new_socket sid]))
      end
  | Receive sid ev =>
      match find_socket sid w with
      | Some s =>
          if connected s then
            match listener (event_name ev) s with
            | Some userId => exec_handler (handler_of sid userId ev) fault w
            | None => w
            end
          else w
      | None => w
      end
  | Disconnect sid =>
      match find_socket sid w with
      | Some s =>
          if connected s then
            let w' := with_sockets w (update_socket sid sock_close (sockets w)) in
            match listener "disconnect" s with
            | Some userId => exec_handler (on_disconnect sid userId) fault w'
            | None => w'
            end
          else w
      | None => w
      end
  end.

Definition server_run (inputs : list (Input * option nat)) (w : World) : World :=
  fold_left (fun w i => server_step (fst i) (snd i) w) inputs w.

(** Identities with an open, bound session: the sockets that are
    connected and have their listeners registered. *)
Definition bound_identity (s : Socket) : option UserId :=
  if connected s then listener "disconnect" s else None.

Definition bound_of (l : list Socket) : list UserId :=
  flat_map (fun s => match bound_identity s with Some u => [u] | None => [] end) l.

Definition bound_identities (w : World) : list UserId := bound_of (sockets w).

End Server.

Definition empty_store (us : list User) : Store := mkStore us [] [] 0 0.
Definition initial_world (us : list User) : World := mkWorld (empty_store us) [] [] [].

(** ** Properties of documents and stores used in the statements *)

(** A message document before and after a 'seen' event that selects the
    ids [ids] and the author [peer]: only the flag can change, and it is
    set exactly when it was set before or the document is selected. *)
Definition marked_seen (ids : list ObjectId) (peer : UserId) (m m' : Message) : Prop :=
  msg_id m' = msg_id m /\ text m' = text m /\ imageUrl m' = imageUrl m /\
  videoUrl m' = videoUrl m /\ msgByUserId m' = msgByUserId m /\
  (seen m' = true <-> seen m = true \/ (In (msg_id m) ids /\ msgByUserId m = peer)).

(** Ids of the messages of the conversation that [findOne] yields for a
    pair (line 152). *)
Definition conversation_message_ids (s : Store) (a b : UserId) : list ObjectId :=
  match findOneConversation s a b with
  | Some c => messages c
  | None => []
  end.

(** Documents carry ids below [nextId] and timestamps below [clock], the
    message ids a conversation lists are below [nextId] too, and no two
    documents of a collection share an id. *)
Definition store_ok (s : Store) : Prop :=
  Forall (fun c => conv_id c < nextId s /\ updatedAt c < clock s) (conversations s) /\
  Forall (fun m => msg_id m < nextId s) (messageDocs s) /\
  Forall (fun c => Forall (fun i => i < nextId s) (messages c)) (conversations s) /\
  NoDup (map conv_id (conversations s)) /\
  NoDup (map msg_id (messageDocs s)).

(** The conversation is between the two identities, in either direction. *)
Definition between (a b : UserId) (c : Conversation) : Prop :=
  (sender c = a /\ receiver c = b) \/ (sender c = b /\ receiver c = a).

(** Number of conversation rows of an unordered pair. *)
Definition rows_of_pair (s : Store) (a b : UserId) : nat :=
  length (filter (pair_match a b) (conversations s)).

(** Programs that leave the presence set and the sockets alone. *)
Definition leaves_presence {X : Type} (op : SyncOp X) : bool :=
  match op with
  | SocketEmit _ _ _ | IoEmit _ _ | IoToEmit _ _ _ | OnlineHas _ | OnlineArray
  | ConsoleLog _ | ConsoleError _ => true
  | _ => false
  end.

Fixpoint presence_free {A : Type} (p : Prog A) : Prop :=
  match p with
  | Ret _ => True
  | Do op k => leaves_presence op = true /\ forall x, presence_free (k x)
  | Await _ k => forall x, presence_free (k x)
  end.

(** Awaited calls that only read. *)
Definition is_read {X : Type} (op : AsyncOp X) : bool :=
  match op with
  | ConversationSave _ _ | MessageSave _ | ConversationPush _ _
  | MessageUpdateManySeen _ _ => false
  | _ => true
  end.

(** Programs that write nothing to the store. *)
Fixpoint read_only {A : Type} (p : Prog A) : Prop :=
  match p with
  | Ret _ => True
  | Do _ k => forall x, read_only (k x)
  | Await op k => is_read op = true /\ forall x, read_only (k x)
  end.

(** Target and event name of each emission of a trace. *)
Definition emission_heads (tr : list Effect) : list (Target * string) :=
  flat_map (fun e => match e with Emitted t ev _ => [(t, ev)] | _ => [] end) tr.

(** Failures that come before the first emission of an event's handler:
    any failure in 'seen' and 'sidebar', a failure among the first four
    awaited calls of 'new message' (its lookup and all its writes are
    among them), a failure of the user lookup of 'message-page'. *)
Definition fails_before_emitting (ev : ClientEvent) (n : nat) : bool :=
  match ev with
  | Seen _ | Sidebar _ => true
  | NewMessageEvent _ => n <=? 3
  | MessagePage _ => n =? 0
  end.

(** The list [l] starts with the list [p]. *)
Definition prefix_of {A : Type} (p l : list A) : Prop := exists rest, l = p ++ rest.

(** The listeners of a bound session (lines 53, 83, 133, 143 and 169),
    each closed over the session's [userId]. *)
Definition registered (u : UserId) : list (string * UserId) :=
  [("message-page", u); ("new message", u); ("sidebar", u); ("seen", u); ("disconnect", u)].

(** Socket [sid] is open and bound to the identity [u]. *)
Definition session_bound (w : World) (sid : SocketId) (u : UserId) : Prop :=
  exists s, find_socket sid w = Some s /\ connected s = true /\ listeners s = registered u.



(** The order of [.sort({ updatedAt: -1 })]. *)
Definition newer_first (c d : Conversation) : Prop := updatedAt d <= updatedAt c.

(** *** Concrete data for the examples *)

Definition alice : User := mkUser "A" "Alice" "alice@example.org" "a.png" (Some "secret").
Definition bob : User := mkUser "B" "Bob" "bob@example.org" "b.png" (Some "secret").
Definition carol : User := mkUser "C" "Carol" "carol@example.org" "c.png" (Some "secret").

Definition demo_verifier (token : string) : option User :=
  if String.eqb token "token-A" then Some alice
  else if String.eqb token "token-B" then Some bob
  else if String.eqb token "token-C" then Some carol
  else None.

Definition demo_world : World := initial_world [alice; bob; carol].

Definition hi_from_A : NewMessage := mkNewMessage "A" "B" (Some "hi") None None "A".
Definition yo_from_B : NewMessage := mkNewMessage "B" "A" (Some "yo") None None "B".

(** A, B and C connected on sockets 1, 2 and 3. *)
Definition demo_connected : World :=
  server_run demo_verifier
    [(Connect 1 (Some "token-A"), None);
     (Connect 2 (Some "token-B"), None);
     (Connect 3 (Some "token-C"), None)] demo_world.

(** ... and one message each way between A and B. *)
Definition demo_chat : World :=
  server_run demo_verifier
    [(Receive 1 (NewMessageEvent hi_from_A), None);
     (Receive 2 (NewMessageEvent yo_from_B), None)] demo_connected.


(** ... and, from [demo_connected], a message from A to B and then one
    from C to A: the conversation of A and B is the older one. *)
Definition hello_from_C : NewMessage := mkNewMessage "C" "A" (Some "hello") None None "C".

Definition demo_two_chats : World :=
  server_run demo_verifier
    [(Receive 1 (NewMessageEvent hi_from_A), None);
     (Receive 3 (NewMessageEvent hello_from_C), None)] demo_connected.







(** A connects on socket 1 and the socket closes while the verifier is
    still pending: the connection handler is suspended at line 37 when the
    disconnection arrives, and is resumed afterwards. *)
Definition closed_while_verifying : World :=
  let w0 := with_sockets demo_world [new_socket 1] in
  let started := advance (body (on_connection 1 (Some "token-A"))) w0 in
  let w1 := server_step demo_verifier (Disconnect 1) None (snd started) in
  snd (resume demo_verifier (fst started) w1).

(** Closed instances of [store_ok] are settled by evaluation. *)
Ltac settle_store_ok :=
  unfold store_ok; vm_compute;
  repeat match goal with
         | |- _ /\ _ => split
         | |- Forall _ _ => constructor
         | |- NoDup _ => constructor
         | |- ~ _ => let H := fresh in intro H; simpl in H; intuition discriminate
         | |- le _ _ => lia
         | |- lt _ _ => lia
         end.


(** Closed instances of [read_only] are settled by inspection. *)
Ltac settle_read_only :=
  repeat match goal with
         | |- _ /\ _ => split
         | |- forall _, _ => intro
         | |- True => exact I
         | |- _ = _ => reflexivity
         | |- read_only (match ?x with _ => _ end) => destruct x; simpl
         | |- read_only (if ?x then _ else _) => destruct x; simpl
         end.


(** ** Further properties of runs used in the statements *)

(** The room or socket a call emits to. *)
Definition op_target {X : Type} (op : SyncOp X) : option Target :=
  match op with
  | SocketEmit sid _ _ => Some (ToSocket sid)
  | IoEmit _ _ => Some ToAll
  | IoToEmit room _ _ => Some (ToRoom room)
  | _ => None
  end.

(** Programs all of whose emissions go to targets of [ts]. *)
Fixpoint emits_within {A : Type} (ts : list Target) (p : Prog A) : Prop :=
  match p with
  | Ret _ => True
  | Do op k =>
      match op_target op with Some t => In t ts | None => True end
      /\ forall x, emits_within ts (k x)
  | Await _ k => forall x, emits_within ts (k x)
  end.

(** The targets of the emissions of a trace, oldest first. *)
Definition targets_of (tr : list Effect) : list Target :=
  flat_map (fun e => match e with Emitted t _ _ => [t] | _ => [] end) tr.

(** Where the handler of a client event may emit: 'message-page' and
    'sidebar' to the requesting socket, 'new message' to the rooms the
    payload names, 'seen' to the rooms of the session's identity and of
    the target. *)
Definition allowed_targets (sid : SocketId) (userId : UserId) (ev : ClientEvent)
  : list Target :=
  match ev with
  | MessagePage _ | Sidebar _ => [ToSocket sid]
  | NewMessageEvent data => [ToRoom (data_sender data); ToRoom (data_receiver data)]
  | Seen targetUserId => [ToRoom userId; ToRoom targetUserId]
  end.

(** The presence list of an 'onlineUser' broadcast. *)
Definition broadcast_payload (e : Effect) : option (list UserId) :=
  match e with
  | Emitted ToAll ev (POnlineUsers l) => if String.eqb ev "onlineUser" then Some l else None
  | _ => None
  end.

(** The presence list of the latest 'onlineUser' broadcast of a trace. *)
Fixpoint last_broadcast (tr : list Effect) : option (list UserId) :=
  match tr with
  | [] => None
  | e :: tr' =>
      match last_broadcast tr' with
      | Some l => Some l
      | None => broadcast_payload e
      end
  end.

(** What the clients have last been told about who is online (nobody,
    before the first broadcast). *)
Definition shown_presence (tr : list Effect) : list UserId :=
  match last_broadcast tr with Some l => l | None => [] end.

(** A document of the messages collection at two moments: same id, same
    content, same author, and a seen flag that was not taken back. *)
Definition message_kept (m m' : Message) : Prop :=
  msg_id m' = msg_id m /\ text m' = text m /\ imageUrl m' = imageUrl m
  /\ videoUrl m' = videoUrl m /\ msgByUserId m' = msgByUserId m
  /\ (seen m = true -> seen m' = true).

(** A conversation row at two moments: same id, same participants, and a
    message list that has only grown at its end. *)
Definition conversation_kept (c c' : Conversation) : Prop :=
  conv_id c' = conv_id c /\ sender c' = sender c /\ receiver c' = receiver c
  /\ prefix_of (messages c) (messages c').

(** The list [l'] is [l], entry by entry related by [R], followed by new
    entries. *)
Definition grown_by {A : Type} (R : A -> A -> Prop) (l l' : list A) : Prop :=
  exists kept added, l' = kept ++ added /\ Forall2 R l kept.

(** The store at two moments: nothing deleted, nothing overwritten. *)
Definition store_grows (s s' : Store) : Prop :=
  users s' = users s
  /\ grown_by message_kept (messageDocs s) (messageDocs s')
  /\ grown_by conversation_kept (conversations s) (conversations s').

(** Every message id that a conversation lists has its document. *)
Definition listed_messages_exist (s : Store) : Prop :=
  Forall (fun c => Forall (fun i => In i (map msg_id (messageDocs s))) (messages c))
         (conversations s).

(** The three shapes of a socket: refused (closed, in no room, without
    listener); bound and open (in exactly the room of its identity); bound
    and closed since (in no room).  A bound socket carries the five
    listeners closed over an identity that the verifier yielded. *)
Definition socket_shape (verifier : string -> option User) (s : Socket) : Prop :=
  (connected s = false /\ rooms s = [] /\ listeners s = [])
  \/ exists token u,
       verifier token = Some u
       /\ listeners s = registered (user_id u)
       /\ ((connected s = true /\ rooms s = [user_id u])
           \/ (connected s = false /\ rooms s = [])).

(** The index, among the awaited calls of a 'new message' handler, of the
    push of line 109: third call when the conversation exists, fourth when
    it is created first. *)
Definition push_call (s : Store) (data : NewMessage) : nat :=
  match findOneConversation s (data_sender data) (data_receiver data) with
  | Some _ => 2
  | None => 3
  end.

(** The events that only ask: 'message-page' and 'sidebar'. *)
Definition is_read_event (ev : ClientEvent) : bool :=
  match ev with
  | MessagePage _ | Sidebar _ => true
  | _ => false
  end.

(** The message lists that a trace carries in its 'message' emissions,
    oldest first. *)
Definition message_lists (tr : list Effect) : list (list Message) :=
  flat_map (fun e => match e with Emitted _ _ (PMessages ms) => [ms] | _ => [] end) tr.


(** * Theorems *)

Section Properties.

Variable verify : string -> option User.

(** ** Lists *)

Lemma emissions_app (a b : list Effect) : emissions (a ++ b) = emissions a ++ emissions b.
Proof. unfold emissions. apply filter_app. Qed.

Lemma map_unchanged {A : Type} (f : A -> A) (l : list A) :
  (forall x, In x l -> f x = x) -> map f l = l.
Proof.
  induction l as [|x l IH]; intros H; simpl.
  - reflexivity.
  - rewrite H by (left; reflexivity). f_equal. apply IH. intros y Hy. apply H. now right.
Qed.

Lemma existsb_nat_In (i : nat) (l : list nat) : existsb (Nat.eqb i) l = true <-> In i l.
Proof.
  rewrite existsb_exists. split.
  - intros [x [Hx E]]. apply Nat.eqb_eq in E. now subst.
  - intros H. exists i. split; [assumption | apply Nat.eqb_refl].
Qed.

Lemma existsb_string_In (u : string) (l : list string) :
  existsb (String.eqb u) l = true <-> In u l.
Proof.
  rewrite existsb_exists. split.
  - intros [x [Hx E]]. apply String.eqb_eq in E. now subst.
  - intros H. exists u. split; [assumption | apply String.eqb_refl].
Qed.

(** ** The 'seen' filter *)

Lemma seen_filter_spec ids author m :
  seen_filter ids author m = true <-> In (msg_id m) ids /\ msgByUserId m = author.
Proof.
  unfold seen_filter. rewrite andb_true_iff, existsb_nat_In, String.eqb_eq. tauto.
Qed.

Lemma seen_filter_nil author m : seen_filter [] author m = false.
Proof. reflexivity. Qed.

Lemma mark_marked ids author m :
  marked_seen ids author m (if seen_filter ids author m then set_seen m else m).
Proof.
  unfold marked_seen. destruct (seen_filter ids author m) eqn:E; simpl.
  - apply seen_filter_spec in E. repeat split; auto.
  - repeat split; auto.
    intros [H | H]; [assumption |].
    apply seen_filter_spec in H. congruence.
Qed.

Lemma updateMany_docs s ids author :
  Forall2 (marked_seen ids author) (messageDocs s)
          (messageDocs (snd (updateManySeen s ids author))).
Proof.
  simpl. induction (messageDocs s) as [|m l IH]; simpl; constructor.
  - apply mark_marked.
  - exact IH.
Qed.


Lemma updateMany_nil s author : updateManySeen s [] author = (0, s).
Proof.
  unfold updateManySeen. f_equal.
  - induction (messageDocs s) as [|m l IH]; simpl; auto.
  - rewrite map_unchanged by reflexivity. now destruct s.
Qed.


(** ** The 'seen' handler *)

Lemma seen_run sid userId target w :
  exec_handler verify (on_seen sid userId target) None w
  = let ids := conversation_message_ids (store w) userId target in
    let r := updateManySeen (store w) ids target in
    let w1 := record_effect (with_store w (snd r)) (Wrote (UpdatedSeen (fst r))) in
    record_effect
      (record_effect w1
         (Emitted (ToRoom userId) "conversation"
            (PConversations (getConversation (snd r) (onlineUsers w) userId))))
      (Emitted (ToRoom target) "conversation"
         (PConversations (getConversation (snd r) (onlineUsers w) target))).
Proof.
  unfold exec_handler, on_seen, conversation_message_ids. cbn.
  destruct (findOneConversation (store w) userId target); reflexivity.
Qed.

Lemma updateMany_conversations s ids author :
  conversations (snd (updateManySeen s ids author)) = conversations s.
Proof. reflexivity. Qed.


Lemma pair_match_between a b c : pair_match a b c = true <-> between a b c.
Proof.
  unfold pair_match, between.
  rewrite orb_true_iff, !andb_true_iff, !String.eqb_eq. reflexivity.
Qed.


(** In a store with at most one row per pair, a row between two identities
    is the only one between them. *)
Lemma single_row_is_only s a b c :
  rows_of_pair s a b <= 1 ->
  In c (conversations s) -> between a b c ->
  forall c', In c' (conversations s) -> between a b c' -> c' = c.
Proof.
  unfold rows_of_pair. intros Hle Hin Hb c' Hin' Hb'.
  assert (H : In c (filter (pair_match a b) (conversations s)))
    by (apply filter_In; split; [exact Hin | now apply pair_match_between]).
  assert (H' : In c' (filter (pair_match a b) (conversations s)))
    by (apply filter_In; split; [exact Hin' | now apply pair_match_between]).
  destruct (filter (pair_match a b) (conversations s)) as [|x [|y l]].
  - destruct H.
  - destruct H as [<- | []]. destruct H' as [<- | []]. reflexivity.
  - simpl in Hle. lia.
Qed.



(** C10: without a conversation between the session's identity and the
    target, the 'seen' handler modifies no message and still emits the
    summary lists to the rooms of the viewer and of the target. *)
Theorem seen_without_conversation_still_emits sid userId targetUserId w :
  findOneConversation (store w) userId targetUserId = None ->
  let w' := exec_handler verify (on_seen sid userId targetUserId) None w in
  store w' = store w
  /\ trace w' = trace w ++
       [Wrote (UpdatedSeen 0);
        Emitted (ToRoom userId) "conversation"
          (PConversations (getConversation (store w) (onlineUsers w) userId));
        Emitted (ToRoom targetUserId) "conversation"
          (PConversations (getConversation (store w) (onlineUsers w) targetUserId))].
Proof.
  intros Hnone w'. unfold w'. rewrite seen_run. unfold conversation_message_ids.
  rewrite Hnone. cbn zeta. rewrite updateMany_nil. simpl. split.
  - reflexivity.
  - rewrite <- !app_assoc. reflexivity.
Qed.

(** ** The 'message-page' handler *)

Lemma message_page_run sid userId target w :
  exec_handler verify (on_message_page sid userId target) None w
  = match findUserById (store w) target with
    | None => w
    | Some tu =>
        record_effect
          (record_effect w
             (Emitted (ToSocket sid) "message-user"
                (PUser (mkUserPayload (user_id tu) (name tu) (email tu) (profile_pic tu)
                                      (set_has target (onlineUsers w))))))
          (Emitted (ToSocket sid) "message"
             (PMessages (messages_or_empty
                           (findOneConversationLatest (store w) userId target))))
    end.
Proof.
  unfold exec_handler, on_message_page. cbn.
  destruct (findUserById (store w) target); reflexivity.
Qed.

(** C6: a 'message-page' event for a target that the user store does not
    hold emits nothing, whether or not a store call fails; for a target
    that exists, the profile event and the messages event are emitted, in
    this order, to the requesting socket and to nothing else. *)
Theorem message_page_missing_target_emits_nothing sid userId targetUserId w :
  (findUserById (store w) targetUserId = None ->
   forall fault,
     let w' := exec_handler verify (on_message_page sid userId targetUserId) fault w in
     emissions (trace w') = emissions (trace w) /\ store w' = store w)
  /\ (forall tu, findUserById (store w) targetUserId = Some tu ->
      let w' := exec_handler verify (on_message_page sid userId targetUserId) None w in
      store w' = store w
      /\ trace w' = trace w ++
           [Emitted (ToSocket sid) "message-user"
              (PUser (mkUserPayload (user_id tu) (name tu) (email tu) (profile_pic tu)
                                    (set_has targetUserId (onlineUsers w))));
            Emitted (ToSocket sid) "message"
              (PMessages (messages_or_empty
                            (findOneConversationLatest (store w) userId targetUserId)))]).
Proof.
  split.
  - intros Hnone fault. unfold exec_handler, on_message_page. cbn.
    destruct fault as [[|n]|]; cbn; rewrite ?Hnone; cbn.
    + rewrite emissions_app. simpl. rewrite app_nil_r. split; reflexivity.
    + split; reflexivity.
    + split; reflexivity.
  - intros tu Hsome. cbn zeta. rewrite message_page_run, Hsome. simpl. split.
    + reflexivity.
    + rewrite <- app_assoc. reflexivity.
Qed.

(** ** The 'new message' handler *)

Lemma world_ext (a b : World) :
  store a = store b -> onlineUsers a = onlineUsers b -> sockets a = sockets b ->
  trace a = trace b -> a = b.
Proof. destruct a, b; simpl; intros; subst; reflexivity. Qed.

Lemma new_message_run sid userId data w :
  exec_handler verify (on_new_message sid userId data) None w
  = let a := data_sender data in
    let b := data_receiver data in
    let found := findOneConversation (store w) a b in
    let c := match found with Some c => c | None => fst (saveConversation (store w) a b) end in
    let s1 := match found with Some _ => store w | None => snd (saveConversation (store w) a b) end in
    let pre := match found with Some _ => [] | None => [Wrote (SavedConversation (conv_id c))] end in
    let m := fst (saveMessage s1 data) in
    let s3 := pushMessage (snd (saveMessage s1 data)) (conv_id c) (msg_id m) in
    let msgs := messages_or_empty (findConversationById s3 (conv_id c)) in
    mkWorld s3 (onlineUsers w) (sockets w)
      (trace w ++ pre ++
         [Wrote (SavedMessage (msg_id m));
          Wrote (PushedMessage (conv_id c) (msg_id m));
          Emitted (ToRoom a) "message" (PMessages msgs);
          Emitted (ToRoom b) "message" (PMessages msgs);
          Emitted (ToRoom a) "conversation" (PConversations (getConversation s3 (onlineUsers w) a));
          Emitted (ToRoom b) "conversation" (PConversations (getConversation s3 (onlineUsers w) b))]).
Proof.
  unfold exec_handler, on_new_message. cbn.
  destruct (findOneConversation (store w) (data_sender data) (data_receiver data));
    apply world_ext; cbn; rewrite <- ?app_assoc; reflexivity.
Qed.

Lemma find_conv_unique (l : list Conversation) (c : Conversation) :
  NoDup (map conv_id l) -> In c l -> find (fun x => conv_id x =? conv_id c) l = Some c.
Proof.
  induction l as [|d l IH]; simpl; intros Hnd Hin; [contradiction |].
  inversion Hnd as [|? ? Hnotin Hnd']; subst.
  destruct Hin as [-> | Hin].
  - now rewrite Nat.eqb_refl.
  - destruct (conv_id d =? conv_id c) eqn:E.
    + apply Nat.eqb_eq in E. exfalso. apply Hnotin. rewrite E. now apply in_map.
    + now apply IH.
Qed.

Lemma find_map_push (l : list Conversation) (c : Conversation) i mid now :
  find (fun x => conv_id x =? i) l = Some c ->
  find (fun x => conv_id x =? i) (map (push_message i mid now) l)
  = Some (push_message i mid now c).
Proof.
  induction l as [|d l IH]; simpl; intros H; [discriminate |].
  destruct (conv_id d =? i) eqn:E.
  - injection H as <-. unfold push_message at 1. rewrite E. simpl. rewrite E. reflexivity.
  - unfold push_message at 1. rewrite E, E. now apply IH.
Qed.

Lemma find_app_fresh (l : list Conversation) (c : Conversation) :
  Forall (fun d => conv_id d < conv_id c) l ->
  find (fun x => conv_id x =? conv_id c) (l ++ [c]) = Some c.
Proof.
  induction 1 as [|d l Hd _ IH]; simpl.
  - now rewrite Nat.eqb_refl.
  - destruct (conv_id d =? conv_id c) eqn:E; [apply Nat.eqb_eq in E; lia | exact IH].
Qed.

Lemma findMessage_old (docs : list Message) (m : Message) (i : ObjectId) :
  i <> msg_id m -> findMessage (docs ++ [m]) i = findMessage docs i.
Proof.
  intros Hne. unfold findMessage. induction docs as [|d docs IH]; simpl.
  - destruct (msg_id m =? i) eqn:E; [apply Nat.eqb_eq in E; congruence | reflexivity].
  - destruct (msg_id d =? i); [reflexivity | exact IH].
Qed.

Lemma findMessage_new (docs : list Message) (m : Message) :
  Forall (fun d => msg_id d < msg_id m) docs -> findMessage (docs ++ [m]) (msg_id m) = Some m.
Proof.
  unfold findMessage. induction 1 as [|d docs Hd _ IH]; simpl.
  - now rewrite Nat.eqb_refl.
  - destruct (msg_id d =? msg_id m) eqn:E; [apply Nat.eqb_eq in E; lia | exact IH].
Qed.

Lemma populate_app docs ids1 ids2 :
  populate docs (ids1 ++ ids2) = populate docs ids1 ++ populate docs ids2.
Proof. unfold populate. apply flat_map_app. Qed.

Lemma populate_old docs m ids :
  Forall (fun i => i < msg_id m) ids -> populate (docs ++ [m]) ids = populate docs ids.
Proof.
  unfold populate. induction 1 as [|i ids Hi _ IH]; simpl; [reflexivity |].
  rewrite findMessage_old by lia. now rewrite IH.
Qed.

Lemma populate_appended docs m ids :
  Forall (fun d => msg_id d < msg_id m) docs ->
  Forall (fun i => i < msg_id m) ids ->
  populate (docs ++ [m]) (ids ++ [msg_id m]) = populate docs ids ++ [m].
Proof.
  intros Hdocs Hids. rewrite populate_app, populate_old by assumption.
  unfold populate at 2. simpl. now rewrite findMessage_new.
Qed.

Lemma pair_match_refl a b c : sender c = a -> receiver c = b -> pair_match a b c = true.
Proof. intros <- <-. unfold pair_match. now rewrite !String.eqb_refl. Qed.

(** C4: a 'new message' event handled without failure first saves the
    message and appends it to the conversation of the pair, and only then
    emits: the full message list of the conversation to the sender's room
    and to the receiver's room, then the recomputed summary lists to the
    sender's room and to the receiver's room. *)
Theorem new_message_persists_then_fans_out sid userId data w :
  store_ok (store w) ->
  let a := data_sender data in
  let b := data_receiver data in
  let w' := exec_handler verify (on_new_message sid userId data) None w in
  exists (c : Conversation) (m : Message) (created : list Effect),
    m = mkMessage (msg_id m) (data_text data) (data_imageUrl data) (data_videoUrl data)
                  (data_msgByUserId data) false
    /\ messageDocs (store w') = messageDocs (store w) ++ [m]
    /\ pair_match a b c = true
    /\ In c (conversations (store w'))
    /\ messages c = conversation_message_ids (store w) a b ++ [msg_id m]
    /\ populate (messageDocs (store w')) (messages c)
       = populate (messageDocs (store w)) (conversation_message_ids (store w) a b) ++ [m]
    /\ forallb is_write created = true
    /\ trace w' = trace w ++ created ++
         [Wrote (SavedMessage (msg_id m));
          Wrote (PushedMessage (conv_id c) (msg_id m));
          Emitted (ToRoom a) "message" (PMessages (populate (messageDocs (store w')) (messages c)));
          Emitted (ToRoom b) "message" (PMessages (populate (messageDocs (store w')) (messages c)));
          Emitted (ToRoom a) "conversation"
            (PConversations (getConversation (store w') (onlineUsers w') a));
          Emitted (ToRoom b) "conversation"
            (PConversations (getConversation (store w') (onlineUsers w') b))].
Proof.
  intros (Hconv & Hdocs & Hids & Hnd & _) a b w'.
  unfold w'. rewrite new_message_run. fold a b. unfold conversation_message_ids.
  destruct (findOneConversation (store w) a b) as [c0|] eqn:F; cbn zeta.
  - apply find_some in F. destruct F as [Hin Hpm].
    pose (mid := nextId (store w)).
    pose (m := mkMessage mid (data_text data) (data_imageUrl data) (data_videoUrl data)
                         (data_msgByUserId data) false).
    pose (c := push_message (conv_id c0) mid (S (clock (store w))) c0).
    assert (Ec : c = mkConversation (conv_id c0) (sender c0) (receiver c0)
                                    (messages c0 ++ [mid]) (S (clock (store w)))).
    { unfold c, push_message. now rewrite Nat.eqb_refl. }
    assert (Efind : findConversationById
                      (pushMessage (snd (saveMessage (store w) data)) (conv_id c0) mid)
                      (conv_id c0)
                    = Some (c, populate (messageDocs (store w) ++ [m]) (messages c))).
    { unfold findConversationById. simpl.
      rewrite find_map_push with (c := c0) by (now apply find_conv_unique).
      reflexivity. }
    assert (Epop : populate (messageDocs (store w) ++ [m]) (messages c)
                   = populate (messageDocs (store w)) (messages c0) ++ [m]).
    { rewrite Ec. simpl. apply populate_appended with (m := m).
      - exact Hdocs.
      - rewrite Forall_forall in Hids. exact (Hids _ Hin). }
    exists c, m, []. simpl fst. simpl msg_id. fold mid. rewrite Efind. simpl messages_or_empty.
    repeat split.
    + unfold pair_match in *. rewrite Ec. exact Hpm.
    + simpl. apply in_map_iff. exists c0. split; [reflexivity | exact Hin].
    + rewrite Ec. reflexivity.
    + exact Epop.
    + rewrite Ec. reflexivity.
  - pose (cid := nextId (store w)).
    pose (mid := S (nextId (store w))).
    pose (m := mkMessage mid (data_text data) (data_imageUrl data) (data_videoUrl data)
                         (data_msgByUserId data) false).
    pose (c := mkConversation cid a b [mid] (S (S (clock (store w))))).
    pose (c1 := mkConversation cid a b [] (clock (store w))).
    assert (Efind : findConversationById
                      (pushMessage (snd (saveMessage (snd (saveConversation (store w) a b)) data))
                                   cid mid) cid
                    = Some (c, populate (messageDocs (store w) ++ [m]) (messages c))).
    { unfold findConversationById. simpl.
      assert (Hfresh : find (fun x => conv_id x =? cid) (conversations (store w) ++ [c1])
                       = Some c1).
      { apply find_app_fresh with (c := c1).
        eapply Forall_impl; [| exact Hconv]. simpl. intros ? [? _]. assumption. }
      rewrite find_map_push with (c := c1) by exact Hfresh. unfold push_message. simpl.
      rewrite Nat.eqb_refl. reflexivity. }
    assert (Epop : populate (messageDocs (store w) ++ [m]) (messages c) = [] ++ [m]).
    { change (messages c) with ([] ++ [msg_id m]).
      rewrite populate_appended.
      - reflexivity.
      - eapply Forall_impl; [| exact Hdocs]. simpl. intros ? ?. unfold mid. lia.
      - constructor. }
    exists c, m, [Wrote (SavedConversation cid)].
    simpl fst. simpl msg_id. simpl conv_id. fold cid. change (S cid) with mid. rewrite Efind. simpl messages_or_empty.
    repeat split.
    + apply pair_match_refl; reflexivity.
    + simpl. rewrite map_app. apply in_or_app. right. simpl. unfold push_message. simpl.
      rewrite Nat.eqb_refl. left. reflexivity.
    + exact Epop.
Qed.

Lemma bound_dispatch sid userId ev fault w :
  session_bound w sid userId ->
  server_step verify (Receive sid ev) fault w
  = exec_handler verify (handler_of sid userId ev) fault w.
Proof.
  intros (s & Hs & Hc & Hl). unfold server_step. rewrite Hs, Hc.
  unfold listener. rewrite Hl. destruct ev; reflexivity.
Qed.

(** C9: what the 'new message' handler writes and emits depends on the
    payload and on the state only: two bound sessions, whatever their
    identities, that submit the same payload in the same state leave the
    same state and trace, with or without a store failure; the message is
    stored under the payload's [msgByUserId] and fanned out to the rooms
    the payload names. *)
Theorem new_message_independent_of_session sid1 userId1 sid2 userId2 data fault w :
  session_bound w sid1 userId1 ->
  session_bound w sid2 userId2 ->
  server_step verify (Receive sid1 (NewMessageEvent data)) fault w
  = server_step verify (Receive sid2 (NewMessageEvent data)) fault w
  /\ (let w' := server_step verify (Receive sid1 (NewMessageEvent data)) None w in
      exists m p1 p2 p3 p4,
        messageDocs (store w') = messageDocs (store w) ++ [m]
        /\ msgByUserId m = data_msgByUserId data
        /\ text m = data_text data
        /\ emissions (trace w') = emissions (trace w) ++
             [Emitted (ToRoom (data_sender data)) "message" p1;
              Emitted (ToRoom (data_receiver data)) "message" p2;
              Emitted (ToRoom (data_sender data)) "conversation" p3;
              Emitted (ToRoom (data_receiver data)) "conversation" p4]).
Proof.
  intros H1 H2. split.
  - rewrite (bound_dispatch _ _ _ _ _ H1), (bound_dispatch _ _ _ _ _ H2). reflexivity.
  - cbn zeta. rewrite (bound_dispatch _ _ _ _ _ H1). simpl handler_of. rewrite new_message_run.
    cbn zeta.
    destruct (findOneConversation (store w) (data_sender data) (data_receiver data));
      do 5 eexists; (split; [reflexivity |]); (split; [reflexivity |]);
      (split; [reflexivity |]); simpl trace; rewrite !emissions_app; simpl;
      rewrite ?app_nil_r; reflexivity.
Qed.

(** ** Connections *)

Local Arguments update_socket : simpl never.
Local Arguments new_socket : simpl never.

Lemma update_socket_absent sid f (l : list Socket) :
  find (fun s => sock_id s =? sid) l = None -> update_socket sid f l = l.
Proof.
  unfold update_socket. induction l as [|s l IH]; simpl; intros H; [reflexivity |].
  destruct (sock_id s =? sid); [discriminate |]. now rewrite IH.
Qed.

Lemma update_socket_last sid f (l : list Socket) (s : Socket) :
  sock_id s = sid ->
  find (fun s => sock_id s =? sid) l = None ->
  update_socket sid f (l ++ [s]) = l ++ [f s].
Proof.
  intros Hs H. unfold update_socket. rewrite map_app. fold (update_socket sid f l).
  rewrite update_socket_absent by exact H. simpl. subst sid. now rewrite Nat.eqb_refl.
Qed.

Lemma bound_of_app (l1 l2 : list Socket) : bound_of (l1 ++ l2) = bound_of l1 ++ bound_of l2.
Proof. apply flat_map_app. Qed.

(** C2: a connection whose token is absent, or which the verifier rejects
    (it yields no user, or fails), is closed with no listener registered
    and no room joined; the presence set, the store and the emissions are
    as before, and no identity has become bound. *)
Theorem unauthenticated_connection_closed sid token fault w :
  find_socket sid w = None ->
  falsy token = true \/ verify (token_string token) = None \/ fault = Some 0 ->
  let w' := server_step verify (Connect sid token) fault w in
  sockets w' = sockets w ++ [mkSocket sid false [] []]
  /\ onlineUsers w' = onlineUsers w
  /\ emissions (trace w') = emissions (trace w)
  /\ store w' = store w
  /\ bound_identities w' = bound_identities w.
Proof.
  intros Hfresh Hrej. cbn zeta. unfold server_step. rewrite Hfresh.
  assert (Hclosed : update_socket sid sock_close (sockets w ++ [new_socket sid])
                    = sockets w ++ [mkSocket sid false [] []]).
  { now rewrite update_socket_last. }
  assert (Hb : bound_of (sockets w ++ [mkSocket sid false [] []]) = bound_identities w).
  { rewrite bound_of_app. simpl. now rewrite app_nil_r. }
  unfold exec_handler, on_connection. cbn.
  destruct (falsy token) eqn:Hf; cbn.
  - rewrite Hclosed, !emissions_app. simpl. rewrite ?app_nil_r.
    repeat split; try reflexivity. exact Hb.
  - destruct fault as [[|n]|]; cbn.
    + rewrite Hclosed, !emissions_app. simpl. rewrite ?app_nil_r.
      repeat split; try reflexivity. exact Hb.
    + destruct Hrej as [Hrej | [Hrej | Hrej]]; [discriminate | | discriminate].
      rewrite Hrej. cbn. rewrite Hclosed, !emissions_app. simpl. rewrite ?app_nil_r.
      repeat split; try reflexivity. exact Hb.
    + destruct Hrej as [Hrej | [Hrej | Hrej]]; [discriminate | | discriminate].
      rewrite Hrej. cbn. rewrite Hclosed, !emissions_app. simpl. rewrite ?app_nil_r.
      repeat split; try reflexivity. exact Hb.
Qed.

(** ** Store failures *)

Lemma exec_sync_trace {X : Type} (op : SyncOp X) w :
  prefix_of (trace w) (trace (snd (exec_sync op w))).
Proof.
  destruct op; simpl; try (exists []; now rewrite app_nil_r); eexists; reflexivity.
Qed.

Lemma exec_async_trace {X : Type} (op : AsyncOp X) w :
  prefix_of (trace w) (trace (snd (exec_async verify op w))).
Proof.
  destruct op; simpl; try (exists []; now rewrite app_nil_r); eexists; reflexivity.
Qed.

Lemma prefix_of_trans {A : Type} (a b c : list A) :
  prefix_of a b -> prefix_of b c -> prefix_of a c.
Proof. intros [r1 ->] [r2 ->]. exists (r1 ++ r2). now rewrite app_assoc. Qed.

Lemma prefix_of_refl {A : Type} (a : list A) : prefix_of a a.
Proof. exists []. now rewrite app_nil_r. Qed.

Lemma run_trace {A : Type} (p : Prog A) fault w :
  prefix_of (trace w) (trace (snd (run verify p fault w))).
Proof.
  revert fault w. induction p as [a | X op k IH | X op k IH]; intros fault w; simpl.
  - apply prefix_of_refl.
  - pose proof (exec_sync_trace op w) as Hs. destruct (exec_sync op w) as [x w1].
    eapply prefix_of_trans; [exact Hs | apply IH].
  - pose proof (exec_async_trace op w) as Hs.
    destruct fault as [[|n]|]; simpl.
    + apply prefix_of_refl.
    + destruct (exec_async verify op w) as [x w1].
      eapply prefix_of_trans; [exact Hs | apply IH].
    + destruct (exec_async verify op w) as [x w1].
      eapply prefix_of_trans; [exact Hs | apply IH].
Qed.

(** A run cut short by a failure has done what the complete run does up
    to that point. *)
Lemma run_fault_prefix {A : Type} (p : Prog A) n w :
  prefix_of (trace (snd (run verify p (Some n) w))) (trace (snd (run verify p None w))).
Proof.
  revert n w. induction p as [a | X op k IH | X op k IH]; intros n w; simpl.
  - apply prefix_of_refl.
  - destruct (exec_sync op w) as [x w1]. apply IH.
  - destruct n as [|n]; simpl.
    + pose proof (exec_async_trace op w) as Hs.
      destruct (exec_async verify op w) as [x w1].
      eapply prefix_of_trans; [exact Hs | apply run_trace].
    + destruct (exec_async verify op w) as [x w1]. apply IH.
Qed.

Lemma exec_async_presence {X : Type} (op : AsyncOp X) w :
  onlineUsers (snd (exec_async verify op w)) = onlineUsers w
  /\ sockets (snd (exec_async verify op w)) = sockets w.
Proof. destruct op; simpl; split; reflexivity. Qed.

Lemma exec_sync_presence {X : Type} (op : SyncOp X) w :
  leaves_presence op = true ->
  onlineUsers (snd (exec_sync op w)) = onlineUsers w
  /\ sockets (snd (exec_sync op w)) = sockets w.
Proof. destruct op; simpl; intros H; try discriminate; split; reflexivity. Qed.

Lemma run_presence_free {A : Type} (p : Prog A) fault w :
  presence_free p ->
  onlineUsers (snd (run verify p fault w)) = onlineUsers w
  /\ sockets (snd (run verify p fault w)) = sockets w.
Proof.
  revert fault w. induction p as [a | X op k IH | X op k IH]; intros fault w; simpl.
  - intros _. split; reflexivity.
  - intros [Hop Hk]. pose proof (exec_sync_presence op w Hop) as [H1 H2].
    destruct (exec_sync op w) as [x w1]. simpl in *.
    destruct (IH x fault w1 (Hk x)) as [H3 H4]. split; congruence.
  - intros Hk. pose proof (exec_async_presence op w) as [H1 H2].
    destruct fault as [[|n]|]; simpl.
    + split; reflexivity.
    + destruct (exec_async verify op w) as [x w1]. simpl in *.
      destruct (IH x (Some n) w1 (Hk x)) as [H3 H4]. split; congruence.
    + destruct (exec_async verify op w) as [x w1]. simpl in *.
      destruct (IH x None w1 (Hk x)) as [H3 H4]. split; congruence.
Qed.

Lemma presence_free_bind {A B : Type} (p : Prog A) (f : A -> Prog B) :
  presence_free p -> (forall a, presence_free (f a)) -> presence_free (bind p f).
Proof.
  intros Hp Hf. induction p as [a | X op k IH | X op k IH]; simpl in *.
  - apply Hf.
  - destruct Hp as [Hop Hk]. split; [exact Hop | intros x; apply IH, Hk].
  - intros x. apply IH, Hp.
Qed.

Lemma event_handlers_presence_free sid userId ev :
  presence_free (body (handler_of sid userId ev))
  /\ presence_free (recover (handler_of sid userId ev)).
Proof.
  destruct ev; simpl; split; auto; intros;
    repeat match goal with
           | |- _ /\ _ => split
           | |- forall _, _ => intro
           | |- True => exact I
           | |- _ = _ => reflexivity
           | |- presence_free (match ?x with _ => _ end) => destruct x; simpl
           | |- presence_free (bind (match ?x with _ => _ end) _) => destruct x; simpl
           end.
Qed.

Lemma run_none_returns {A : Type} (p : Prog A) w :
  exists a, fst (run verify p None w) = Returned a.
Proof.
  revert w. induction p as [a | X op k IH | X op k IH]; intros w; simpl.
  - now exists a.
  - destruct (exec_sync op w) as [x w1]. apply IH.
  - destruct (exec_async verify op w) as [x w1]. apply IH.
Qed.

Lemma exec_handler_none h w : exec_handler verify h None w = snd (run verify (body h) None w).
Proof.
  unfold exec_handler. destruct (run_none_returns (body h) w) as [a Ha].
  destruct (run verify (body h) None w) as [o w1]. simpl in *. now rewrite Ha.
Qed.

Lemma event_recover_logs sid userId ev w :
  exists line, snd (run verify (recover (handler_of sid userId ev)) None w)
               = record_effect w (Logged line).
Proof. destruct ev; simpl; eexists; reflexivity. Qed.

Lemma emissions_prefix (a b : list Effect) :
  prefix_of a b -> prefix_of (emissions a) (emissions b).
Proof. intros [r ->]. exists (emissions r). apply emissions_app. Qed.

(** C5, as the code has it: when a store call of an event's handler
    fails, the handler stops there and logs the failure; what it emitted
    before the failing call stays emitted (a prefix of what the handling
    without failure emits) and nothing is emitted after it; the presence
    set and the sockets are as before.  A failure before the handler's
    first emission (every failing write is one) leaves no emission at
    all. *)
Theorem store_failure_stops_handler sid userId ev n w :
  fst (run verify (body (handler_of sid userId ev)) (Some n) w) = Threw ->
  let at_failure := snd (run verify (body (handler_of sid userId ev)) (Some n) w) in
  let w' := exec_handler verify (handler_of sid userId ev) (Some n) w in
  let w_ok := exec_handler verify (handler_of sid userId ev) None w in
  (exists line, trace w' = trace at_failure ++ [Logged line])
  /\ prefix_of (emissions (trace w')) (emissions (trace w_ok))
  /\ onlineUsers w' = onlineUsers w
  /\ sockets w' = sockets w
  /\ (fails_before_emitting ev n = true -> emissions (trace w') = emissions (trace w)).
Proof.
  intros Hthrew at_failure w' w_ok.
  assert (Ew' : exists line, w' = record_effect at_failure (Logged line)).
  { unfold w', exec_handler, at_failure.
    destruct (run verify (body (handler_of sid userId ev)) (Some n) w) as [o w1].
    simpl in Hthrew. subst o. simpl. apply event_recover_logs. }
  destruct Ew' as [line Ew'].
  destruct (event_handlers_presence_free sid userId ev) as [Hbody _].
  destruct (run_presence_free (body (handler_of sid userId ev)) (Some n) w Hbody)
    as [Hon Hsock].
  fold at_failure in Hon, Hsock.
  assert (Eem : emissions (trace w') = emissions (trace at_failure)).
  { rewrite Ew'. simpl. rewrite emissions_app. simpl. apply app_nil_r. }
  split; [| split; [| split; [| split]]].
  - exists line. now rewrite Ew'.
  - rewrite Eem. apply emissions_prefix. unfold w_ok. rewrite exec_handler_none.
    apply run_fault_prefix.
  - rewrite Ew'. exact Hon.
  - rewrite Ew'. exact Hsock.
  - intros Hsafe. rewrite Eem. unfold at_failure. clear - Hsafe Hthrew.
    destruct ev as [t | data | u | t]; simpl in Hsafe.
    + apply Nat.eqb_eq in Hsafe. subst n. reflexivity.
    + apply Nat.leb_le in Hsafe. simpl. unfold on_new_message. cbn.
      destruct n as [|[|[|[|n]]]]; [| | | | lia]; cbn;
        destruct (findOneConversation (store w) (data_sender data) (data_receiver data));
        cbn; rewrite ?emissions_app; simpl; rewrite ?app_nil_r; reflexivity.
    + revert Hthrew. simpl. unfold on_sidebar. cbn.
      destruct n as [|n]; cbn; [reflexivity | discriminate].
    + revert Hthrew. simpl. unfold on_seen. cbn.
      destruct n as [|[|[|[|n]]]]; cbn;
        rewrite ?emissions_app; simpl; rewrite ?app_nil_r;
        try reflexivity; discriminate.
Qed.

(** ** Summary lists *)

Lemma insert_desc_perm c l : Permutation (insert_desc c l) (c :: l).
Proof.
  induction l as [|d l IH]; simpl.
  - apply Permutation_refl.
  - destruct (updatedAt d <=? updatedAt c).
    + apply Permutation_refl.
    + eapply Permutation_trans; [apply perm_skip, IH | apply perm_swap].
Qed.

Lemma sort_desc_perm l : Permutation (sort_desc l) l.
Proof.
  induction l as [|c l IH]; simpl.
  - constructor.
  - eapply Permutation_trans; [apply insert_desc_perm | now apply perm_skip].
Qed.

Lemma insert_desc_sorted c l :
  StronglySorted newer_first l -> StronglySorted newer_first (insert_desc c l).
Proof.
  induction 1 as [|d l Hs IH Hd]; simpl.
  - repeat constructor.
  - destruct (updatedAt d <=? updatedAt c) eqn:E.
    + apply Nat.leb_le in E. constructor.
      * now constructor.
      * constructor; [exact E |].
        eapply Forall_impl; [| exact Hd]. unfold newer_first. intros; lia.
    + apply Nat.leb_gt in E. constructor; [exact IH |].
      eapply Permutation_Forall; [apply Permutation_sym, insert_desc_perm |].
      constructor; [unfold newer_first; lia | exact Hd].
Qed.

Lemma sort_desc_sorted l : StronglySorted newer_first (sort_desc l).
Proof.
  induction l as [|c l IH]; simpl; [constructor | now apply insert_desc_sorted].
Qed.

(** The one strictly most recent document heads the sorted list. *)
Lemma sort_desc_head (x : Conversation) (l : list Conversation) :
  In x l ->
  (forall d, In d l -> d = x \/ updatedAt d < updatedAt x) ->
  exists rest, sort_desc l = x :: rest.
Proof.
  induction l as [|d l IH]; intros Hin Hmax; [contradiction |].
  simpl. destruct Hin as [-> | Hin].
  - destruct (sort_desc l) as [|e r] eqn:Es; simpl; [now eexists |].
    assert (He : In e l).
    { eapply Permutation_in; [apply sort_desc_perm |]. rewrite Es. now left. }
    assert (E : (updatedAt e <=? updatedAt x) = true).
    { apply Nat.leb_le. destruct (Hmax e (or_intror He)) as [-> | Hlt]; lia. }
    rewrite E. now eexists.
  - destruct (IH Hin (fun e He => Hmax e (or_intror He))) as [rest ->]. simpl.
    destruct (Hmax d (or_introl eq_refl)) as [-> | Hlt].
    + rewrite Nat.leb_refl. now eexists.
    + assert (E : (updatedAt x <=? updatedAt d) = false) by (apply Nat.leb_gt; lia).
      rewrite E. now eexists.
Qed.

Lemma same_id_same_conversation (l : list Conversation) (c d : Conversation) :
  NoDup (map conv_id l) -> In c l -> In d l -> conv_id d = conv_id c -> d = c.
Proof.
  induction l as [|e l IH]; simpl; intros Hnd Hc Hd E; [contradiction |].
  inversion Hnd as [|? ? Hnotin Hnd']; subst.
  destruct Hc as [-> | Hc], Hd as [-> | Hd].
  - reflexivity.
  - exfalso. apply Hnotin. rewrite <- E. now apply in_map.
  - exfalso. apply Hnotin. rewrite E. now apply in_map.
  - now apply IH.
Qed.

Lemma involves_push u i mid now c : involves u (push_message i mid now c) = involves u c.
Proof. unfold push_message. now destruct (conv_id c =? i). Qed.

Lemma summaries_sorted s presence u (l : list Conversation) :
  StronglySorted newer_first l ->
  StronglySorted (fun x y => sum_updatedAt y <= sum_updatedAt x)
                 (map (summarize s presence u) l).
Proof.
  induction 1 as [|c l Hs IH Hc]; simpl; constructor.
  - exact IH.
  - rewrite Forall_map. exact Hc.
Qed.

Lemma sidebar_run sid userId currentUserId w :
  exec_handler verify (on_sidebar sid userId currentUserId) None w
  = record_effect w (Emitted (ToSocket sid) "conversation"
       (PConversations (getConversation (store w) (onlineUsers w) currentUserId))).
Proof. reflexivity. Qed.

(** C8: the summary list computed for an identity holds exactly the
    conversations that involve it, most recently updated first; a
    conversation to which a message is appended heads the list computed
    next; and 'sidebar' emits this list to the requesting socket. *)
Theorem summaries_most_recent_first sid userId currentUserId w :
  let s := store w in
  let summaries := getConversation s (onlineUsers w) currentUserId in
  Permutation summaries
    (map (summarize s (onlineUsers w) currentUserId)
         (filter (involves currentUserId) (conversations s)))
  /\ StronglySorted (fun x y => sum_updatedAt y <= sum_updatedAt x) summaries
  /\ (store_ok s ->
      forall c mid, In c (conversations s) -> involves currentUserId c = true ->
      exists first rest,
        getConversation (pushMessage s (conv_id c) mid) (onlineUsers w) currentUserId
        = first :: rest
        /\ sum_conv first = conv_id c)
  /\ trace (exec_handler verify (on_sidebar sid userId currentUserId) None w)
     = trace w ++ [Emitted (ToSocket sid) "conversation" (PConversations summaries)].
Proof.
  intros s summaries. split; [| split; [| split]].
  - unfold summaries, getConversation. apply Permutation_map, sort_desc_perm.
  - unfold summaries, getConversation. apply summaries_sorted, sort_desc_sorted.
  - intros (Hconv & _ & _ & Hnd & _) c mid Hin Hinv.
    pose (c' := push_message (conv_id c) mid (clock s) c).
    assert (Ec' : c' = mkConversation (conv_id c) (sender c) (receiver c)
                                      (messages c ++ [mid]) (clock s)).
    { unfold c', push_message. now rewrite Nat.eqb_refl. }
    destruct (sort_desc_head c'
                (filter (involves currentUserId)
                        (map (push_message (conv_id c) mid (clock s)) (conversations s))))
      as [rest Hrest].
    + apply filter_In. split.
      * apply in_map_iff. exists c. split; [reflexivity | exact Hin].
      * unfold c'. now rewrite involves_push.
    + intros d' Hd'. apply filter_In in Hd'. destruct Hd' as [Hd' _].
      apply in_map_iff in Hd'. destruct Hd' as (d & <- & Hd).
      destruct (Nat.eq_dec (conv_id d) (conv_id c)) as [E | E].
      * left. rewrite (same_id_same_conversation (conversations s) c d Hnd Hin Hd E). reflexivity.
      * right. unfold push_message at 1. apply Nat.eqb_neq in E. rewrite E.
        rewrite Ec'. simpl. rewrite Forall_forall in Hconv. now apply Hconv.
    + exists (summarize (pushMessage s (conv_id c) mid) (onlineUsers w) currentUserId c').
      eexists. unfold getConversation. simpl conversations. rewrite Hrest. simpl. split.
      * reflexivity.
      * rewrite Ec'. reflexivity.
  - reflexivity.
Qed.

(** ** The presence set *)

Lemma set_add_In u v l : In v (set_add u l) <-> v = u \/ In v l.
Proof.
  unfold set_add. destruct (existsb (String.eqb u) l) eqn:E.
  - apply existsb_string_In in E. split; [now right | intros [-> | H]; assumption].
  - rewrite in_app_iff. simpl. intuition (subst; auto).
Qed.




Lemma set_delete_In u v l : In v (set_delete u l) <-> v <> u /\ In v l.
Proof.
  unfold set_delete. rewrite filter_In, negb_true_iff, String.eqb_neq. intuition congruence.
Qed.





Lemma update_socket_ids sid f (l : list Socket) :
  (forall s, sock_id (f s) = sock_id s) ->
  map sock_id (update_socket sid f l) = map sock_id l.
Proof.
  intros Hf. unfold update_socket. rewrite map_map. apply map_ext. intros s.
  destruct (sock_id s =? sid); [apply Hf | reflexivity].
Qed.



Lemma receive_outcome sid ev fault w :
  let w' := server_step verify (Receive sid ev) fault w in
  sockets w' = sockets w /\ onlineUsers w' = onlineUsers w.
Proof.
  cbn zeta. unfold server_step.
  destruct (find_socket sid w) as [s|]; [| split; reflexivity].
  destruct (connected s); [| split; reflexivity].
  destruct (listener (event_name ev) s) as [u|]; [| split; reflexivity].
  destruct (event_handlers_presence_free sid u ev) as [Hb Hr].
  unfold exec_handler.
  destruct (run_presence_free (body (handler_of sid u ev)) fault w Hb) as [H1 H2].
  destruct (run verify (body (handler_of sid u ev)) fault w) as [[a|] w1]; simpl in *.
  - split; assumption.
  - destruct (run_presence_free (recover (handler_of sid u ev)) None w1 Hr) as [H3 H4].
    split; congruence.
Qed.









(** ** Well-formed stores along every run *)

Lemma exec_sync_store {X : Type} (op : SyncOp X) w : store (snd (exec_sync op w)) = store w.
Proof. destruct op; reflexivity. Qed.

Lemma exec_async_read {X : Type} (op : AsyncOp X) w :
  is_read op = true -> store (snd (exec_async verify op w)) = store w.
Proof. destruct op; simpl; intros H; try discriminate; reflexivity. Qed.

Lemma run_read_only {A : Type} (p : Prog A) fault w :
  read_only p -> store (snd (run verify p fault w)) = store w.
Proof.
  revert fault w. induction p as [a | X op k IH | X op k IH]; intros fault w; simpl.
  - reflexivity.
  - intros Hk. pose proof (exec_sync_store op w) as Hs.
    destruct (exec_sync op w) as [x w1]. simpl in Hs. rewrite <- Hs. apply IH, Hk.
  - intros [Hop Hk]. pose proof (exec_async_read op w Hop) as Hs.
    destruct fault as [[|n]|]; simpl; [reflexivity | |];
      destruct (exec_async verify op w) as [x w1]; simpl in Hs; rewrite <- Hs; apply IH, Hk.
Qed.

Lemma exec_handler_read_only h fault w :
  read_only (body h) -> read_only (recover h) ->
  store (exec_handler verify h fault w) = store w.
Proof.
  intros Hb Hr. unfold exec_handler.
  pose proof (run_read_only (body h) fault w Hb) as H1.
  destruct (run verify (body h) fault w) as [[a|] w1]; simpl in *.
  - exact H1.
  - rewrite <- H1. now apply run_read_only.
Qed.

Lemma connection_read_only sid token :
  read_only (body (on_connection sid token)) /\ read_only (recover (on_connection sid token)).
Proof. simpl. split; settle_read_only. Qed.

Lemma disconnect_read_only sid userId :
  read_only (body (on_disconnect sid userId)) /\ read_only (recover (on_disconnect sid userId)).
Proof. simpl. split; settle_read_only. Qed.

Lemma message_page_read_only sid userId target :
  read_only (body (on_message_page sid userId target))
  /\ read_only (recover (on_message_page sid userId target)).
Proof. simpl. split; settle_read_only. Qed.

Lemma sidebar_read_only sid userId u :
  read_only (body (on_sidebar sid userId u)) /\ read_only (recover (on_sidebar sid userId u)).
Proof. simpl. split; settle_read_only. Qed.

Lemma store_ok_saveConversation s a b :
  store_ok s -> store_ok (snd (saveConversation s a b)).
Proof.
  intros (Hc & Hm & Hi & Hn1 & Hn2). unfold store_ok. simpl. repeat split.
  - apply Forall_app. split.
    + eapply Forall_impl; [| exact Hc]. simpl. intros ? [? ?]. split; lia.
    + repeat constructor; simpl; lia.
  - eapply Forall_impl; [| exact Hm]. simpl. intros; lia.
  - apply Forall_app. split.
    + eapply Forall_impl; [| exact Hi]. simpl. intros c Hall.
      eapply Forall_impl; [| exact Hall]. simpl. intros; lia.
    + repeat constructor.
  - rewrite map_app. simpl. apply NoDup_app; [exact Hn1 | repeat constructor; intros [] |].
    intros x Hx [<- | []]. apply in_map_iff in Hx. destruct Hx as (c & E & Hin).
    rewrite Forall_forall in Hc. destruct (Hc c Hin). lia.
  - exact Hn2.
Qed.

Lemma store_ok_saveMessage s d : store_ok s -> store_ok (snd (saveMessage s d)).
Proof.
  intros (Hc & Hm & Hi & Hn1 & Hn2). unfold store_ok. simpl. repeat split.
  - eapply Forall_impl; [| exact Hc]. simpl. intros ? [? ?]. split; lia.
  - apply Forall_app. split.
    + eapply Forall_impl; [| exact Hm]. simpl. intros; lia.
    + repeat constructor.
  - eapply Forall_impl; [| exact Hi]. simpl. intros c Hall.
    eapply Forall_impl; [| exact Hall]. simpl. intros; lia.
  - exact Hn1.
  - rewrite map_app. simpl. apply NoDup_app; [exact Hn2 | repeat constructor; intros [] |].
    intros x Hx [<- | []]. apply in_map_iff in Hx. destruct Hx as (m & E & Hin).
    rewrite Forall_forall in Hm. specialize (Hm m Hin). lia.
Qed.

Lemma store_ok_pushMessage s i mid :
  mid < nextId s -> store_ok s -> store_ok (pushMessage s i mid).
Proof.
  intros Hmid (Hc & Hm & Hi & Hn1 & Hn2). unfold store_ok. simpl. repeat split.
  - rewrite Forall_map. eapply Forall_impl; [| exact Hc]. simpl. intros c [? ?].
    unfold push_message. destruct (conv_id c =? i); simpl; split; lia.
  - exact Hm.
  - rewrite Forall_map. eapply Forall_impl; [| exact Hi]. simpl. intros c Hall.
    unfold push_message. destruct (conv_id c =? i); simpl; [| exact Hall].
    apply Forall_app. split; [exact Hall | repeat constructor; exact Hmid].
  - rewrite map_map.
    replace (map (fun c => conv_id (push_message i mid (clock s) c)) (conversations s))
      with (map conv_id (conversations s)); [exact Hn1 |].
    apply map_ext. intros c. unfold push_message. now destruct (conv_id c =? i).
  - exact Hn2.
Qed.

Lemma store_ok_updateManySeen s ids author :
  store_ok s -> store_ok (snd (updateManySeen s ids author)).
Proof.
  intros (Hc & Hm & Hi & Hn1 & Hn2). unfold store_ok. simpl. repeat split.
  - exact Hc.
  - rewrite Forall_map. eapply Forall_impl; [| exact Hm]. simpl. intros m ?.
    now destruct (seen_filter ids author m).
  - exact Hi.
  - exact Hn1.
  - rewrite map_map.
    replace (map (fun m => msg_id (if seen_filter ids author m then set_seen m else m))
                 (messageDocs s))
      with (map msg_id (messageDocs s)); [exact Hn2 |].
    apply map_ext. intros m. now destruct (seen_filter ids author m).
Qed.

(** The stores a 'new message' handler can leave, whichever call fails. *)
Lemma new_message_stores sid userId data fault w :
  let a := data_sender data in
  let b := data_receiver data in
  let s1 := match findOneConversation (store w) a b with
            | Some _ => store w
            | None => snd (saveConversation (store w) a b)
            end in
  let s2 := snd (saveMessage s1 data) in
  let s3 := pushMessage s2 (match findOneConversation (store w) a b with
                             | Some c => conv_id c
                             | None => nextId (store w)
                             end) (nextId s1) in
  let s' := store (exec_handler verify (on_new_message sid userId data) fault w) in
  s' = store w \/ s' = s1 \/ s' = s2 \/ s' = s3.
Proof.
  cbn zeta. unfold exec_handler, on_new_message. cbn.
  destruct fault as [[|[|[|[|[|[|[|n]]]]]]]|]; cbn;
    destruct (findOneConversation (store w) (data_sender data) (data_receiver data));
    cbn; auto.
Qed.

Lemma new_message_store_ok sid userId data fault w :
  store_ok (store w) ->
  store_ok (store (exec_handler verify (on_new_message sid userId data) fault w)).
Proof.
  intros Hok.
  pose proof (new_message_stores sid userId data fault w) as H. cbn zeta in H.
  set (s1 := match findOneConversation (store w) (data_sender data) (data_receiver data) with
             | Some _ => store w
             | None => snd (saveConversation (store w) (data_sender data) (data_receiver data))
             end) in *.
  assert (H1 : store_ok s1).
  { unfold s1. destruct (findOneConversation _ _ _); [exact Hok |].
    now apply store_ok_saveConversation. }
  assert (H2 : store_ok (snd (saveMessage s1 data))) by now apply store_ok_saveMessage.
  destruct H as [-> | [-> | [-> | ->]]]; try assumption.
  apply store_ok_pushMessage; [simpl; lia | exact H2].
Qed.

Lemma seen_store_ok sid userId target fault w :
  store_ok (store w) ->
  store_ok (store (exec_handler verify (on_seen sid userId target) fault w)).
Proof.
  intros Hok.
  assert (H : store (exec_handler verify (on_seen sid userId target) fault w) = store w
              \/ store (exec_handler verify (on_seen sid userId target) fault w)
                 = snd (updateManySeen (store w)
                          (conversation_message_ids (store w) userId target) target)).
  { unfold exec_handler, on_seen, conversation_message_ids. cbn.
    destruct fault as [[|[|[|[|n]]]]|]; cbn; auto. }
  destruct H as [-> | ->]; [exact Hok | now apply store_ok_updateManySeen].
Qed.

Lemma store_ok_step i fault w :
  store_ok (store w) -> store_ok (store (server_step verify i fault w)).
Proof.
  intros Hok. destruct i as [sid token | sid ev | sid]; unfold server_step.
  - destruct (find_socket sid w); [exact Hok |].
    destruct (connection_read_only sid token) as [Hb Hr].
    now rewrite exec_handler_read_only.
  - destruct (find_socket sid w) as [s|]; [| exact Hok].
    destruct (connected s); [| exact Hok].
    destruct (listener (event_name ev) s) as [u|]; [| exact Hok].
    destruct ev as [t | data | cu | t]; simpl handler_of.
    + destruct (message_page_read_only sid u t) as [Hb Hr].
      now rewrite exec_handler_read_only.
    + now apply new_message_store_ok.
    + destruct (sidebar_read_only sid u cu) as [Hb Hr].
      now rewrite exec_handler_read_only.
    + now apply seen_store_ok.
  - destruct (find_socket sid w) as [s|]; [| exact Hok].
    destruct (connected s); [| exact Hok].
    destruct (listener "disconnect" s) as [u|]; [| exact Hok].
    destruct (disconnect_read_only sid u) as [Hb Hr].
    now rewrite exec_handler_read_only.
Qed.

(** Every store the server reaches from an empty one is well formed,
    whatever the inputs and the store failures. *)
Lemma store_ok_reachable us inputs :
  store_ok (store (server_run verify inputs (initial_world us))).
Proof.
  assert (H : forall w, store_ok (store w) -> store_ok (store (server_run verify inputs w))).
  { induction inputs as [|[i f] inputs IH]; intros w Hok; simpl.
    - exact Hok.
    - apply IH. now apply store_ok_step. }
  apply H. repeat split; simpl; constructor.
Qed.

(** ** Conversations per pair, serially and interleaved *)

Lemma advance_run {A : Type} (p : Prog A) w :
  run verify p None w = run verify (fst (advance p w)) None (snd (advance p w)).
Proof.
  revert w. induction p as [a | X op k IH | X op k IH]; intros w; simpl.
  - reflexivity.
  - destruct (exec_sync op w) as [x w1]. apply IH.
  - reflexivity.
Qed.

(** Resuming a suspended task and then running it to its end is running
    it to its end. *)
Lemma resume_run {A : Type} (p : Prog A) w :
  run verify p None w = run verify (fst (resume verify p w)) None (snd (resume verify p w)).
Proof.
  destruct p as [a | X op k | X op k]; simpl.
  - reflexivity.
  - destruct (exec_sync op w) as [x w1]. apply advance_run.
  - destruct (exec_async verify op w) as [x w1]. apply advance_run.
Qed.

Lemma pair_match_push a b i mid now c :
  pair_match a b (push_message i mid now c) = pair_match a b c.
Proof. unfold push_message. now destruct (conv_id c =? i). Qed.

Lemma rows_of_pair_push s i mid a b :
  rows_of_pair (pushMessage s i mid) a b = rows_of_pair s a b.
Proof.
  unfold rows_of_pair. simpl. induction (conversations s) as [|c l IH]; simpl; [reflexivity |].
  rewrite pair_match_push. destruct (pair_match a b c); simpl; now rewrite IH.
Qed.

Lemma pair_match_same_pair a b c :
  pair_match a b c = true ->
  forall d, pair_match a b d = pair_match (sender c) (receiver c) d.
Proof.
  unfold pair_match. intros H d.
  apply orb_true_iff in H. rewrite !andb_true_iff, !String.eqb_eq in H.
  destruct H as [[-> ->] | [-> ->]]; [reflexivity | apply orb_comm].
Qed.



(** *** One row per pair *)

Lemma rows_after_resolve s a0 b0 :
  (forall a b, rows_of_pair s a b <= 1) ->
  forall a b,
    rows_of_pair (match findOneConversation s a0 b0 with
                  | Some _ => s
                  | None => snd (saveConversation s a0 b0)
                  end) a b <= 1.
Proof.
  intros Hone a b. destruct (findOneConversation s a0 b0) as [c|] eqn:F; [apply Hone |].
  unfold rows_of_pair. simpl. rewrite filter_app, length_app. simpl.
  destruct (pair_match a b _) eqn:E; simpl.
  - pose proof (pair_match_same_pair _ _ _ E) as Hsame. simpl in Hsame.
    rewrite (filter_ext _ _ Hsame).
    assert (Hnil : filter (pair_match a0 b0) (conversations s) = []).
    { destruct (filter _ _) as [|d l] eqn:Ef; [reflexivity |].
      assert (Hd : In d (filter (pair_match a0 b0) (conversations s)))
        by (rewrite Ef; now left).
      apply filter_In in Hd. destruct Hd as [Hd Hm].
      pose proof (find_none _ _ F _ Hd). congruence. }
    rewrite Hnil. simpl. lia.
  - specialize (Hone a b). unfold rows_of_pair in Hone. lia.
Qed.

Lemma one_row_step i fault w :
  (forall a b, rows_of_pair (store w) a b <= 1) ->
  forall a b, rows_of_pair (store (server_step verify i fault w)) a b <= 1.
Proof.
  intros Hone a b. destruct i as [sid token | sid ev | sid]; unfold server_step.
  - destruct (find_socket sid w); [apply Hone |].
    destruct (connection_read_only sid token) as [Hb Hr].
    rewrite exec_handler_read_only by assumption. apply Hone.
  - destruct (find_socket sid w) as [s|]; [| apply Hone].
    destruct (connected s); [| apply Hone].
    destruct (listener (event_name ev) s) as [u|]; [| apply Hone].
    destruct ev as [t | data | cu | t]; simpl handler_of.
    + destruct (message_page_read_only sid u t) as [Hb Hr].
      rewrite exec_handler_read_only by assumption. apply Hone.
    + pose proof (new_message_stores sid u data fault w) as H. cbn zeta in H.
      pose proof (rows_after_resolve (store w) (data_sender data) (data_receiver data) Hone a b)
        as H1.
      destruct H as [-> | [-> | [-> | ->]]].
      * apply Hone.
      * exact H1.
      * exact H1.
      * rewrite rows_of_pair_push. exact H1.
    + destruct (sidebar_read_only sid u cu) as [Hb Hr].
      rewrite exec_handler_read_only by assumption. apply Hone.
    + assert (H : conversations (store (exec_handler verify (on_seen sid u t) fault w))
                  = conversations (store w)).
      { unfold exec_handler, on_seen. cbn. destruct fault as [[|[|[|[|n]]]]|]; reflexivity. }
      unfold rows_of_pair. rewrite H. apply Hone.
  - destruct (find_socket sid w) as [s|]; [| apply Hone].
    destruct (connected s); [| apply Hone].
    destruct (listener "disconnect" s) as [u|]; [| apply Hone].
    destruct (disconnect_read_only sid u) as [Hb Hr].
    rewrite exec_handler_read_only by assumption. apply Hone.
Qed.

(** X16: events handled one after the other, each to its end, never leave
    two rows for a pair, whatever the events and the store failures. *)
Lemma serial_handling_keeps_one_row us inputs a b :
  rows_of_pair (store (server_run verify inputs (initial_world us))) a b <= 1.
Proof.
  assert (H : forall w, (forall a b, rows_of_pair (store w) a b <= 1) ->
                        forall a b, rows_of_pair (store (server_run verify inputs w)) a b <= 1).
  { induction inputs as [|[i f] inputs IH]; intros w Hone; simpl.
    - exact Hone.
    - apply IH. now apply one_row_step. }
  apply H. intros a' b'. unfold rows_of_pair. simpl. lia.
Qed.

(** C1 on the code: two 'new message' events for the pair {A, B}, one in
    each direction, whose lookups are both answered before either handler
    creates the conversation, run to their ends and leave two rows for the
    pair, each with one of the two messages.  With the first handler run
    to its end before the second starts, one row holds both messages. *)
Theorem interleaved_new_messages_create_two_rows :
  let tasks := [body (on_new_message 1 "A" hi_from_A);
                body (on_new_message 2 "B" yo_from_B)] in
  let rows w := map (fun c => (sender c, receiver c, length (messages c)))
                    (conversations (store w)) in
  let raced := interleave demo_verifier [0; 1; 0; 0; 0; 0; 0; 0; 1; 1; 1; 1; 1; 1]
                          tasks demo_connected in
  let serial := interleave demo_verifier [0; 0; 0; 0; 0; 0; 0; 1; 1; 1; 1; 1; 1]
                           tasks demo_connected in
  rows_of_pair (store demo_connected) "A" "B" = 0
  /\ forallb finished (fst raced) = true
  /\ rows_of_pair (store (snd raced)) "A" "B" = 2
  /\ rows (snd raced) = [("A", "B", 1); ("B", "A", 1)]
  /\ forallb finished (fst serial) = true
  /\ rows (snd serial) = [("A", "B", 2)].
Proof. vm_compute. repeat split; reflexivity. Qed.

(** * Further properties *)

(** ** The life of a session *)

Lemma find_socket_last sid (l : list Socket) (s : Socket) :
  sock_id s = sid ->
  find (fun x => sock_id x =? sid) l = None ->
  find (fun x => sock_id x =? sid) (l ++ [s]) = Some s.
Proof.
  intros Hs. induction l as [|x l IH]; simpl; intros H.
  - subst sid. now rewrite Nat.eqb_refl.
  - destruct (sock_id x =? sid); [discriminate | now apply IH].
Qed.

Lemma find_socket_updated sid f (l : list Socket) :
  (forall s, sock_id (f s) = sock_id s) ->
  find (fun x => sock_id x =? sid) (update_socket sid f l)
  = option_map f (find (fun x => sock_id x =? sid) l).
Proof.
  intros Hf. unfold update_socket. induction l as [|x l IH]; simpl; [reflexivity |].
  destruct (sock_id x =? sid) eqn:E.
  - rewrite Hf, E. reflexivity.
  - rewrite E. exact IH.
Qed.

(** The two ways a connection on a fresh socket ends. *)
Lemma connect_cases sid token fault w :
  find_socket sid w = None ->
  let w' := server_step verify (Connect sid token) fault w in
  ((falsy token = true \/ verify (token_string token) = None \/ fault = Some 0)
   /\ sockets w' = sockets w ++ [mkSocket sid false [] []]
   /\ onlineUsers w' = onlineUsers w
   /\ store w' = store w
   /\ exists lines, trace w' = trace w ++ map Logged lines)
  \/ (exists u,
        falsy token = false /\ verify (token_string token) = Some u /\ fault <> Some 0
        /\ sockets w' = sockets w ++ [mkSocket sid true [user_id u] (registered (user_id u))]
        /\ onlineUsers w' = set_add (user_id u) (onlineUsers w)
        /\ store w' = store w
        /\ trace w' = trace w ++
             [Logged "User connected";
              Emitted ToAll "onlineUser"
                (POnlineUsers (set_add (user_id u) (onlineUsers w)))]).
Proof.
  intros Hfresh. cbn zeta. unfold server_step. rewrite Hfresh.
  unfold exec_handler, on_connection. cbn.
  destruct (falsy token) eqn:Hf; cbn.
  - left. rewrite update_socket_last by (reflexivity || exact Hfresh).
    repeat split; auto.
    exists ["User connected"; "No token provided, disconnecting user"].
    simpl. rewrite <- app_assoc. reflexivity.
  - destruct fault as [[|n]|]; cbn.
    + left. rewrite update_socket_last by (reflexivity || exact Hfresh).
      repeat split; auto.
      exists ["User connected"; "Connection error"]. simpl. rewrite <- app_assoc. reflexivity.
    + destruct (verify (token_string token)) as [u|] eqn:Hv; cbn.
      * right. exists u.
        rewrite !update_socket_last by (reflexivity || exact Hfresh).
        repeat split; auto; try discriminate. rewrite <- app_assoc. reflexivity.
      * left. rewrite update_socket_last by (reflexivity || exact Hfresh).
        repeat split; auto.
        exists ["User connected"; "Invalid token, disconnecting user"].
        simpl. rewrite <- app_assoc. reflexivity.
    + destruct (verify (token_string token)) as [u|] eqn:Hv; cbn.
      * right. exists u.
        rewrite !update_socket_last by (reflexivity || exact Hfresh).
        repeat split; auto; try discriminate. rewrite <- app_assoc. reflexivity.
      * left. rewrite update_socket_last by (reflexivity || exact Hfresh).
        repeat split; auto.
        exists ["User connected"; "Invalid token, disconnecting user"].
        simpl. rewrite <- app_assoc. reflexivity.
Qed.

Lemma closed_socket_ignores sid (s : Socket) w :
  find_socket sid w = Some s -> connected s = false ->
  (forall ev f, server_step verify (Receive sid ev) f w = w)
  /\ (forall f, server_step verify (Disconnect sid) f w = w).
Proof.
  intros Hs Hc. split; intros; unfold server_step; now rewrite Hs, Hc.
Qed.

(** X1: a connection on a fresh socket whose token the verifier accepts
    binds the session: the socket stays open, joins the room of the
    identity and gets the five listeners; the identity is in the presence
    set; one 'onlineUser' broadcast carries the presence set with the
    identity in it; the store is untouched. *)
Theorem accepted_connection_binds_session sid token fault u w :
  find_socket sid w = None ->
  falsy token = false ->
  verify (token_string token) = Some u ->
  fault <> Some 0 ->
  let w' := server_step verify (Connect sid token) fault w in
  session_bound w' sid (user_id u)
  /\ find_socket sid w' = Some (mkSocket sid true [user_id u] (registered (user_id u)))
  /\ In (user_id u) (onlineUsers w')
  /\ onlineUsers w' = set_add (user_id u) (onlineUsers w)
  /\ store w' = store w
  /\ trace w' = trace w ++
       [Logged "User connected";
        Emitted ToAll "onlineUser" (POnlineUsers (onlineUsers w'))].
Proof.
  intros Hfresh Hf Hv Hfault. cbn zeta.
  destruct (connect_cases sid token fault w Hfresh)
    as [([Hr | [Hr | Hr]] & _) | (u' & _ & Hv' & _ & Hs & Ho & Hst & Htr)];
    try congruence.
  assert (u' = u) by congruence. subst u'.
  assert (Hfind : find_socket sid (server_step verify (Connect sid token) fault w)
                  = Some (mkSocket sid true [user_id u] (registered (user_id u)))).
  { unfold find_socket. rewrite Hs. apply find_socket_last; [reflexivity | exact Hfresh]. }
  split; [| split; [| split; [| split; [| split]]]].
  - eexists. split; [exact Hfind |]. split; reflexivity.
  - exact Hfind.
  - rewrite Ho. apply set_add_In. now left.
  - exact Ho.
  - exact Hst.
  - rewrite Htr, Ho. reflexivity.
Qed.

(** X2: when a bound session disconnects, its identity leaves the presence
    set (whether or not it has other open sessions), one 'onlineUser'
    broadcast carries the presence set without it, and the store is
    untouched. *)
Theorem disconnect_broadcasts_presence sid u fault w :
  session_bound w sid u ->
  let w' := server_step verify (Disconnect sid) fault w in
  onlineUsers w' = set_delete u (onlineUsers w)
  /\ ~ In u (onlineUsers w')
  /\ store w' = store w
  /\ trace w' = trace w ++
       [Logged "User disconnected";
        Emitted ToAll "onlineUser" (POnlineUsers (onlineUsers w'))].
Proof.
  intros (s & Hs & Hc & Hl). cbn zeta.
  assert (E : server_step verify (Disconnect sid) fault w
              = record_effect
                  (record_effect
                     (with_online (with_sockets w (update_socket sid sock_close (sockets w)))
                                  (set_delete u (onlineUsers w)))
                     (Logged "User disconnected"))
                  (Emitted ToAll "onlineUser" (POnlineUsers (set_delete u (onlineUsers w))))).
  { unfold server_step. rewrite Hs, Hc. unfold listener. rewrite Hl. reflexivity. }
  rewrite E. simpl.
  split; [reflexivity |]. split.
  - intros Hin. apply set_delete_In in Hin. destruct Hin as [Hne _]. now apply Hne.
  - split; [reflexivity | now rewrite <- app_assoc].
Qed.

(** X3: a socket whose connection was refused (no token, or the verifier
    yields no user or fails) has no handler: whatever event it sends
    later, with whatever payload, and its disconnection change nothing;
    in particular its disconnection broadcasts nothing. *)
Theorem refused_socket_is_inert sid token fault w :
  find_socket sid w = None ->
  falsy token = true \/ verify (token_string token) = None \/ fault = Some 0 ->
  let w' := server_step verify (Connect sid token) fault w in
  (forall ev f, server_step verify (Receive sid ev) f w' = w')
  /\ (forall f, server_step verify (Disconnect sid) f w' = w').
Proof.
  intros Hfresh Hrej. cbn zeta.
  destruct (connect_cases sid token fault w Hfresh)
    as [(_ & Hs & _) | (u & Hf & Hv & Hfault & _)].
  - apply closed_socket_ignores with (s := mkSocket sid false [] []); [| reflexivity].
    unfold find_socket. rewrite Hs. apply find_socket_last; [reflexivity | exact Hfresh].
  - destruct Hrej as [Hr | [Hr | Hr]]; congruence.
Qed.

(** ** Where emissions go *)

Lemma targets_of_app (a b : list Effect) : targets_of (a ++ b) = targets_of a ++ targets_of b.
Proof. apply flat_map_app. Qed.

Lemma exec_sync_added {X : Type} (op : SyncOp X) w :
  exists added,
    trace (snd (exec_sync op w)) = trace w ++ added
    /\ targets_of added = match op_target op with Some t => [t] | None => [] end.
Proof.
  destruct op; simpl;
    first [ exists []; split; [now rewrite app_nil_r | reflexivity]
          | eexists; split; reflexivity ].
Qed.

Lemma exec_async_added {X : Type} (op : AsyncOp X) w :
  exists added,
    trace (snd (exec_async verify op w)) = trace w ++ added /\ targets_of added = [].
Proof.
  destruct op; simpl;
    first [ exists []; split; [now rewrite app_nil_r | reflexivity]
          | eexists; split; reflexivity ].
Qed.

(** A program emits where its calls emit, however far it gets. *)
Lemma run_emits_within {A : Type} (ts : list Target) (p : Prog A) fault w :
  emits_within ts p ->
  exists added,
    trace (snd (run verify p fault w)) = trace w ++ added /\ incl (targets_of added) ts.
Proof.
  revert fault w. induction p as [a | X op k IH | X op k IH]; intros fault w; simpl.
  - intros _. exists []. split; [now rewrite app_nil_r | intros x []].
  - intros [Hop Hk]. destruct (exec_sync_added op w) as (a1 & E1 & T1).
    destruct (exec_sync op w) as [x w1]. simpl in E1.
    destruct (IH x fault w1 (Hk x)) as (a2 & E2 & T2).
    exists (a1 ++ a2). split.
    + rewrite E2, E1. now rewrite app_assoc.
    + rewrite targets_of_app, T1. apply incl_app; [| exact T2].
      destruct (op_target op); [| intros y []]. intros y [<- | []]. exact Hop.
  - intros Hk. destruct (exec_async_added op w) as (a1 & E1 & T1).
    assert (Hstep : forall f', exists added,
               trace (snd (let (x, w') := exec_async verify op w in run verify (k x) f' w'))
               = trace w ++ added /\ incl (targets_of added) ts).
    { intros f'. destruct (exec_async verify op w) as [x w1]. simpl in E1.
      destruct (IH x f' w1 (Hk x)) as (a2 & E2 & T2).
      exists (a1 ++ a2). split.
      - rewrite E2, E1. now rewrite app_assoc.
      - rewrite targets_of_app, T1. exact T2. }
    destruct fault as [[|n]|]; simpl.
    + exists []. split; [now rewrite app_nil_r | intros x []].
    + apply Hstep.
    + apply Hstep.
Qed.

Lemma event_handlers_emit_within sid userId ev :
  emits_within (allowed_targets sid userId ev) (body (handler_of sid userId ev))
  /\ emits_within (allowed_targets sid userId ev) (recover (handler_of sid userId ev)).
Proof.
  destruct ev; simpl; split; auto; intros;
    repeat match goal with
           | |- _ /\ _ => split
           | |- forall _, _ => intro
           | |- True => exact I
           | |- _ \/ _ => first [left; reflexivity | right]
           | |- emits_within _ (match ?x with _ => _ end) => destruct x; simpl
           | |- emits_within _ (bind (match ?x with _ => _ end) _) => destruct x; simpl
           end.
Qed.

Lemma handler_routing sid userId ev fault w :
  exists added,
    trace (exec_handler verify (handler_of sid userId ev) fault w) = trace w ++ added
    /\ incl (targets_of added) (allowed_targets sid userId ev).
Proof.
  destruct (event_handlers_emit_within sid userId ev) as [Hb Hr].
  unfold exec_handler.
  destruct (run_emits_within _ (body (handler_of sid userId ev)) fault w Hb)
    as (a1 & E1 & T1).
  destruct (run verify (body (handler_of sid userId ev)) fault w) as [[x|] w1]; simpl in *.
  - exists a1. split; assumption.
  - destruct (run_emits_within _ (recover (handler_of sid userId ev)) None w1 Hr)
      as (a2 & E2 & T2).
    exists (a1 ++ a2). split.
    + rewrite E2, E1. now rewrite app_assoc.
    + rewrite targets_of_app. now apply incl_app.
Qed.

(** X4: whatever a client event's handler emits, and however far it gets
    before a store call fails, goes only where the event allows:
    'message-page' and 'sidebar' answer the requesting socket, 'new
    message' emits to the rooms of the payload's sender and receiver,
    'seen' to the rooms of the session's identity and of the target.  No
    handler of a client event broadcasts to all. *)
Theorem event_emissions_stay_in_their_rooms sid userId ev fault w :
  exists added,
    trace (exec_handler verify (handler_of sid userId ev) fault w) = trace w ++ added
    /\ incl (targets_of added) (allowed_targets sid userId ev)
    /\ ~ In ToAll (targets_of added).
Proof.
  destruct (handler_routing sid userId ev fault w) as (added & E & T).
  exists added. split; [exact E |]. split; [exact T |].
  intros Hin. apply T in Hin. destruct ev; simpl in Hin;
    repeat (destruct Hin as [Hin | Hin]; [discriminate |]); exact Hin.
Qed.

(** ** What the clients are told about presence *)

Lemma last_broadcast_app (a b : list Effect) :
  last_broadcast (a ++ b)
  = match last_broadcast b with Some l => Some l | None => last_broadcast a end.
Proof.
  induction a as [|e a IH]; simpl.
  - now destruct (last_broadcast b).
  - rewrite IH. now destruct (last_broadcast b).
Qed.

Lemma last_broadcast_none (added : list Effect) :
  ~ In ToAll (targets_of added) -> last_broadcast added = None.
Proof.
  induction added as [|e added IH]; simpl; intros H; [reflexivity |].
  rewrite IH.
  - destruct e as [wr | t ev p | line]; simpl; try reflexivity.
    destruct t; try reflexivity. exfalso. apply H. simpl. now left.
  - intros Hin. apply H. unfold targets_of in *. simpl. apply in_or_app. now right.
Qed.

Lemma last_broadcast_logged (lines : list string) : last_broadcast (map Logged lines) = None.
Proof. induction lines as [|l lines IH]; simpl; [reflexivity | now rewrite IH]. Qed.

Lemma disconnect_cases sid fault w :
  let w' := server_step verify (Disconnect sid) fault w in
  (trace w' = trace w /\ onlineUsers w' = onlineUsers w /\ store w' = store w)
  \/ (exists u,
        onlineUsers w' = set_delete u (onlineUsers w)
        /\ store w' = store w
        /\ trace w' = trace w ++
             [Logged "User disconnected";
              Emitted ToAll "onlineUser" (POnlineUsers (set_delete u (onlineUsers w)))]).
Proof.
  cbn zeta. unfold server_step.
  destruct (find_socket sid w) as [s|]; [| left; repeat split].
  destruct (connected s); [| left; repeat split].
  destruct (listener "disconnect" s) as [u|]; [| left; repeat split].
  right. exists u. cbn. repeat split. now rewrite <- app_assoc.
Qed.

Lemma shown_presence_step i fault w :
  shown_presence (trace w) = onlineUsers w ->
  shown_presence (trace (server_step verify i fault w))
  = onlineUsers (server_step verify i fault w).
Proof.
  intros Hinv. destruct i as [sid token | sid ev | sid].
  - destruct (find_socket sid w) as [s|] eqn:Hfind.
    + unfold server_step. rewrite Hfind. exact Hinv.
    + destruct (connect_cases sid token fault w Hfind)
        as [(_ & _ & Ho & _ & lines & Htr) | (u & _ & _ & _ & _ & Ho & _ & Htr)];
        rewrite Htr, Ho; unfold shown_presence in *; rewrite last_broadcast_app.
      * now rewrite last_broadcast_logged.
      * reflexivity.
  - destruct (receive_outcome sid ev fault w) as [_ Ho]. rewrite Ho.
    unfold server_step.
    destruct (find_socket sid w) as [s|]; [| exact Hinv].
    destruct (connected s); [| exact Hinv].
    destruct (listener (event_name ev) s) as [u|]; [| exact Hinv].
    destruct (handler_routing sid u ev fault w) as (added & E & T).
    rewrite E. unfold shown_presence in *. rewrite last_broadcast_app.
    rewrite last_broadcast_none; [exact Hinv |].
    intros Hin. apply T in Hin. destruct ev; simpl in Hin;
      repeat (destruct Hin as [Hin | Hin]; [discriminate |]); exact Hin.
  - destruct (disconnect_cases sid fault w) as [(Htr & Ho & _) | (u & Ho & _ & Htr)];
      rewrite Htr, Ho; [exact Hinv |].
    unfold shown_presence. rewrite last_broadcast_app. reflexivity.
Qed.

(** X5: at every moment of every run, with any store failures, the
    presence list of the latest 'onlineUser' broadcast is the presence
    set as it is now: each change of the set is broadcast, and nothing
    else broadcasts a presence list. *)
Theorem latest_broadcast_is_the_presence_set us inputs :
  shown_presence (trace (server_run verify inputs (initial_world us)))
  = onlineUsers (server_run verify inputs (initial_world us)).
Proof.
  assert (H : forall w, shown_presence (trace w) = onlineUsers w ->
                        shown_presence (trace (server_run verify inputs w))
                        = onlineUsers (server_run verify inputs w)).
  { induction inputs as [|[i f] inputs IH]; intros w Hinv; simpl.
    - exact Hinv.
    - apply IH. now apply shown_presence_step. }
  apply H. reflexivity.
Qed.

(** ** Nothing is deleted, nothing is overwritten *)

Lemma Forall2_same {A : Type} (R : A -> A -> Prop) (l : list A) :
  (forall x, R x x) -> Forall2 R l l.
Proof. intros HR. induction l; constructor; auto. Qed.

Lemma Forall2_map_right {A : Type} (R : A -> A -> Prop) (f : A -> A) (l : list A) :
  (forall x, R x (f x)) -> Forall2 R l (map f l).
Proof. intros HR. induction l; simpl; constructor; auto. Qed.

Lemma Forall2_chain {A : Type} (R : A -> A -> Prop) :
  (forall x y z, R x y -> R y z -> R x z) ->
  forall l1 l2 l3, Forall2 R l1 l2 -> Forall2 R l2 l3 -> Forall2 R l1 l3.
Proof.
  intros HR l1 l2 l3 H12. revert l3.
  induction H12 as [|x y l1 l2 Hxy _ IH]; intros l3 H23; inversion H23; subst.
  - constructor.
  - constructor; [eapply HR; eassumption | now apply IH].
Qed.

Lemma grown_by_same {A : Type} (R : A -> A -> Prop) (l : list A) :
  (forall x, R x x) -> grown_by R l l.
Proof.
  intros HR. exists l, []. split; [now rewrite app_nil_r | now apply Forall2_same].
Qed.

Lemma grown_by_chain {A : Type} (R : A -> A -> Prop) (l1 l2 l3 : list A) :
  (forall x y z, R x y -> R y z -> R x z) ->
  grown_by R l1 l2 -> grown_by R l2 l3 -> grown_by R l1 l3.
Proof.
  intros HR (k1 & a1 & -> & H1) (k2 & a2 & -> & H2).
  apply Forall2_app_inv_l in H2. destruct H2 as (k21 & k22 & H21 & H22 & ->).
  exists k21, (k22 ++ a2). split; [now rewrite app_assoc |].
  eapply Forall2_chain; eassumption.
Qed.

Lemma message_kept_same m : message_kept m m.
Proof. unfold message_kept. tauto. Qed.

Lemma message_kept_chain m1 m2 m3 :
  message_kept m1 m2 -> message_kept m2 m3 -> message_kept m1 m3.
Proof. unfold message_kept. intros H1 H2. intuition congruence. Qed.

Lemma conversation_kept_same c : conversation_kept c c.
Proof. unfold conversation_kept. repeat split. apply prefix_of_refl. Qed.

Lemma conversation_kept_chain c1 c2 c3 :
  conversation_kept c1 c2 -> conversation_kept c2 c3 -> conversation_kept c1 c3.
Proof.
  unfold conversation_kept. intros (? & ? & ? & P1) (? & ? & ? & P2).
  repeat split; try congruence. eapply prefix_of_trans; eassumption.
Qed.

Lemma store_grows_same s : store_grows s s.
Proof.
  repeat split.
  - apply grown_by_same, message_kept_same.
  - apply grown_by_same, conversation_kept_same.
Qed.

Lemma store_grows_chain s1 s2 s3 : store_grows s1 s2 -> store_grows s2 s3 -> store_grows s1 s3.
Proof.
  intros (U1 & M1 & C1) (U2 & M2 & C2). repeat split.
  - congruence.
  - eapply grown_by_chain; [exact message_kept_chain | eassumption | eassumption].
  - eapply grown_by_chain; [exact conversation_kept_chain | eassumption | eassumption].
Qed.

(** Every awaited call, with whatever arguments, only adds to the store. *)
Lemma exec_async_grows {X : Type} (op : AsyncOp X) w :
  store_grows (store w) (store (snd (exec_async verify op w))).
Proof.
  destruct op; simpl; try apply store_grows_same.
  - (* save of a conversation *)
    repeat split; simpl.
    + apply grown_by_same, message_kept_same.
    + eexists _, _. split; [reflexivity |]. apply Forall2_same, conversation_kept_same.
  - (* save of a message *)
    repeat split; simpl.
    + eexists _, _. split; [reflexivity |]. apply Forall2_same, message_kept_same.
    + apply grown_by_same, conversation_kept_same.
  - (* push *)
    repeat split; simpl.
    + apply grown_by_same, message_kept_same.
    + eexists _, []. split; [now rewrite app_nil_r |].
      apply Forall2_map_right. intros c. unfold push_message, conversation_kept.
      destruct (conv_id c =? i); simpl; repeat split;
        first [apply prefix_of_refl | now eexists].
  - (* updateMany *)
    repeat split; simpl.
    + eexists _, []. split; [now rewrite app_nil_r |].
      apply Forall2_map_right. intros m. unfold message_kept.
      destruct (seen_filter ids author m); simpl; tauto.
    + apply grown_by_same, conversation_kept_same.
Qed.

Lemma run_grows {A : Type} (p : Prog A) fault w :
  store_grows (store w) (store (snd (run verify p fault w))).
Proof.
  revert fault w. induction p as [a | X op k IH | X op k IH]; intros fault w; simpl.
  - apply store_grows_same.
  - pose proof (exec_sync_store op w) as Hs. destruct (exec_sync op w) as [x w1].
    simpl in Hs. rewrite <- Hs. apply IH.
  - pose proof (exec_async_grows op w) as Hs.
    destruct fault as [[|n]|]; simpl; [apply store_grows_same | |];
      destruct (exec_async verify op w) as [x w1]; simpl in Hs;
      (eapply store_grows_chain; [exact Hs | apply IH]).
Qed.

Lemma exec_handler_grows h fault w :
  store_grows (store w) (store (exec_handler verify h fault w)).
Proof.
  unfold exec_handler. pose proof (run_grows (body h) fault w) as H1.
  destruct (run verify (body h) fault w) as [[a|] w1]; simpl in *; [exact H1 |].
  eapply store_grows_chain; [exact H1 | apply run_grows].
Qed.

Lemma server_step_grows i fault w :
  store_grows (store w) (store (server_step verify i fault w)).
Proof.
  destruct i as [sid token | sid ev | sid]; unfold server_step.
  - destruct (find_socket sid w); [apply store_grows_same |].
    apply (exec_handler_grows _ _ (with_sockets w (sockets w ++ [new_socket sid]))).
  - destruct (find_socket sid w) as [s|]; [| apply store_grows_same].
    destruct (connected s); [| apply store_grows_same].
    destruct (listener (event_name ev) s); [| apply store_grows_same].
    apply exec_handler_grows.
  - destruct (find_socket sid w) as [s|]; [| apply store_grows_same].
    destruct (connected s); [| apply store_grows_same].
    destruct (listener "disconnect" s); [| apply store_grows_same].
    apply (exec_handler_grows _ _ (with_sockets w (update_socket sid sock_close (sockets w)))).
Qed.

(** X6: over any run from any state, with any store failures, the store
    only grows: no user, message or conversation is deleted or moved; a
    message keeps its id, content and author, and its seen flag is never
    taken back; a conversation keeps its id and participants, and its
    message list only grows at its end. *)
Theorem store_only_grows inputs w :
  store_grows (store w) (store (server_run verify inputs w)).
Proof.
  revert w. induction inputs as [|[i f] inputs IH]; intros w; simpl.
  - apply store_grows_same.
  - eapply store_grows_chain; [apply server_step_grows | apply IH].
Qed.

(** ** No conversation lists a message that was not saved *)

Lemma listed_more_docs (convs : list Conversation) (docs docs' : list Message) :
  incl (map msg_id docs) (map msg_id docs') ->
  Forall (fun c => Forall (fun i => In i (map msg_id docs)) (messages c)) convs ->
  Forall (fun c => Forall (fun i => In i (map msg_id docs')) (messages c)) convs.
Proof.
  intros Hincl H. eapply Forall_impl; [| exact H]. simpl. intros c Hc.
  eapply Forall_impl; [| exact Hc]. simpl. intros i Hi. now apply Hincl.
Qed.

Lemma listed_saveConversation s a b :
  listed_messages_exist s -> listed_messages_exist (snd (saveConversation s a b)).
Proof.
  unfold listed_messages_exist. simpl. intros H. apply Forall_app. split; [exact H |].
  repeat constructor.
Qed.

Lemma listed_saveMessage s d :
  listed_messages_exist s -> listed_messages_exist (snd (saveMessage s d)).
Proof.
  unfold listed_messages_exist. simpl. apply listed_more_docs.
  rewrite map_app. apply incl_appl, incl_refl.
Qed.

Lemma listed_pushMessage s i mid :
  In mid (map msg_id (messageDocs s)) ->
  listed_messages_exist s -> listed_messages_exist (pushMessage s i mid).
Proof.
  unfold listed_messages_exist. simpl. intros Hmid H. rewrite Forall_map.
  eapply Forall_impl; [| exact H]. simpl. intros c Hc. unfold push_message.
  destruct (conv_id c =? i); simpl; [| exact Hc].
  apply Forall_app. split; [exact Hc | repeat constructor; exact Hmid].
Qed.

Lemma listed_updateManySeen s ids author :
  listed_messages_exist s -> listed_messages_exist (snd (updateManySeen s ids author)).
Proof.
  unfold listed_messages_exist. simpl. apply listed_more_docs.
  rewrite map_map. intros i Hi. apply in_map_iff in Hi. destruct Hi as (m & <- & Hm).
  apply in_map_iff. exists m. split; [| exact Hm].
  now destruct (seen_filter ids author m).
Qed.

Lemma listed_step i fault w :
  listed_messages_exist (store w) ->
  listed_messages_exist (store (server_step verify i fault w)).
Proof.
  intros Hok. destruct i as [sid token | sid ev | sid]; unfold server_step.
  - destruct (find_socket sid w); [exact Hok |].
    destruct (connection_read_only sid token) as [Hb Hr].
    now rewrite exec_handler_read_only.
  - destruct (find_socket sid w) as [s|]; [| exact Hok].
    destruct (connected s); [| exact Hok].
    destruct (listener (event_name ev) s) as [u|]; [| exact Hok].
    destruct ev as [t | data | cu | t]; simpl handler_of.
    + destruct (message_page_read_only sid u t) as [Hb Hr].
      now rewrite exec_handler_read_only.
    + pose proof (new_message_stores sid u data fault w) as H. cbn zeta in H.
      set (s1 := match findOneConversation (store w) (data_sender data) (data_receiver data)
                 with
                 | Some _ => store w
                 | None => snd (saveConversation (store w) (data_sender data)
                                                 (data_receiver data))
                 end) in *.
      assert (H1 : listed_messages_exist s1).
      { unfold s1. destruct (findOneConversation _ _ _); [exact Hok |].
        now apply listed_saveConversation. }
      assert (H2 : listed_messages_exist (snd (saveMessage s1 data)))
        by now apply listed_saveMessage.
      destruct H as [-> | [-> | [-> | ->]]]; try assumption.
      apply listed_pushMessage; [| exact H2].
      simpl. rewrite map_app. apply in_or_app. right. now left.
    + destruct (sidebar_read_only sid u cu) as [Hb Hr].
      now rewrite exec_handler_read_only.
    + assert (H : store (exec_handler verify (on_seen sid u t) fault w) = store w
                  \/ store (exec_handler verify (on_seen sid u t) fault w)
                     = snd (updateManySeen (store w)
                              (conversation_message_ids (store w) u t) t)).
      { unfold exec_handler, on_seen, conversation_message_ids. cbn.
        destruct fault as [[|[|[|[|n]]]]|]; cbn; auto. }
      destruct H as [-> | ->]; [exact Hok | now apply listed_updateManySeen].
  - destruct (find_socket sid w) as [s|]; [| exact Hok].
    destruct (connected s); [| exact Hok].
    destruct (listener "disconnect" s) as [u|]; [| exact Hok].
    destruct (disconnect_read_only sid u) as [Hb Hr].
    now rewrite exec_handler_read_only.
Qed.

Lemma populate_all_found docs ids :
  Forall (fun i => In i (map msg_id docs)) ids ->
  map msg_id (populate docs ids) = ids.
Proof.
  unfold populate. induction 1 as [|i ids Hi _ IH]; simpl; [reflexivity |].
  rewrite map_app, IH. unfold findMessage.
  destruct (find (fun m => msg_id m =? i) docs) as [m|] eqn:F.
  - apply find_some in F. destruct F as [_ F]. apply Nat.eqb_eq in F. simpl. now rewrite F.
  - exfalso. apply in_map_iff in Hi. destruct Hi as (m & Hm & Hin).
    pose proof (find_none _ _ F _ Hin) as E. simpl in E. apply Nat.eqb_neq in E. congruence.
Qed.

(** X7: the message is saved before its id is pushed, and a failed save
    abandons the handler: at every moment of every run from an empty
    store, with any store failures, every message id that a conversation
    lists has its document, so the populated message list of a
    conversation has exactly the listed ids, in the listed order. *)
Theorem listed_messages_always_exist us inputs :
  let s := store (server_run verify inputs (initial_world us)) in
  listed_messages_exist s
  /\ forall c, In c (conversations s) ->
               map msg_id (populate (messageDocs s) (messages c)) = messages c.
Proof.
  assert (H : forall w, listed_messages_exist (store w) ->
                        listed_messages_exist (store (server_run verify inputs w))).
  { induction inputs as [|[i f] inputs IH]; intros w Hok; simpl.
    - exact Hok.
    - apply IH. now apply listed_step. }
  cbn zeta.
  assert (Hl : listed_messages_exist (store (server_run verify inputs (initial_world us)))).
  { apply H. constructor. }
  split; [exact Hl |].
  intros c Hc. apply populate_all_found.
  unfold listed_messages_exist in Hl. rewrite Forall_forall in Hl. now apply Hl.
Qed.

(** ** What a failure leaves in the store *)

(** X8: the writes of a 'new message' handler are not undone when a later
    write fails.  When the save of the message fails after the
    conversation was created, the empty conversation row stays; when the
    push fails, the saved message stays in the collection and no
    conversation lists it.  In both cases nothing is emitted. *)
Theorem new_message_failure_keeps_earlier_writes sid userId data w :
  store_ok (store w) ->
  let a := data_sender data in
  let b := data_receiver data in
  (findOneConversation (store w) a b = None ->
   let w' := exec_handler verify (on_new_message sid userId data) (Some 2) w in
   conversations (store w')
   = conversations (store w) ++ [mkConversation (nextId (store w)) a b [] (clock (store w))]
   /\ messageDocs (store w') = messageDocs (store w)
   /\ emissions (trace w') = emissions (trace w))
  /\ (let w' := exec_handler verify (on_new_message sid userId data)
                             (Some (push_call (store w) data)) w in
      exists m,
        messageDocs (store w') = messageDocs (store w) ++ [m]
        /\ msgByUserId m = data_msgByUserId data
        /\ text m = data_text data
        /\ Forall (fun c => ~ In (msg_id m) (messages c)) (conversations (store w'))
        /\ emissions (trace w') = emissions (trace w)).
Proof.
  intros (_ & _ & Hids & _) a b. split.
  - intros Hnone. cbn zeta. unfold exec_handler, on_new_message. cbn.
    fold a b. rewrite Hnone. cbn. rewrite !emissions_app. simpl. rewrite !app_nil_r.
    repeat split.
  - cbn zeta. unfold push_call. fold a b.
    unfold exec_handler, on_new_message. cbn. fold a b.
    destruct (findOneConversation (store w) a b) as [c0|] eqn:F; cbn;
      eexists; (split; [reflexivity |]); (split; [reflexivity |]);
      (split; [reflexivity |]); simpl; rewrite !emissions_app; simpl; rewrite !app_nil_r;
      (split; [| reflexivity]).
    + eapply Forall_impl; [| exact Hids]. simpl. intros c Hc Hin.
      rewrite Forall_forall in Hc. specialize (Hc _ Hin). lia.
    + apply Forall_app. split.
      * eapply Forall_impl; [| exact Hids]. simpl. intros c Hc Hin.
        rewrite Forall_forall in Hc. specialize (Hc _ Hin). lia.
      * repeat constructor. intros [].
Qed.

(** ** The events that only ask *)

Lemma read_event_run sid userId ev w :
  is_read_event ev = true ->
  exists answer,
    forall w2, store w2 = store w -> onlineUsers w2 = onlineUsers w ->
               exec_handler verify (handler_of sid userId ev) None w2
               = mkWorld (store w2) (onlineUsers w2) (sockets w2) (trace w2 ++ answer).
Proof.
  destruct ev as [t | data | cu | t]; simpl; intros Hr; try discriminate.
  - destruct (findUserById (store w) t) as [tu|] eqn:F.
    + eexists. intros w2 Hs Ho. rewrite message_page_run, Hs, Ho, F.
      apply world_ext; simpl; try reflexivity; try assumption.
      rewrite <- app_assoc. reflexivity.
    + exists []. intros w2 Hs Ho. rewrite message_page_run, Hs, F.
      apply world_ext; simpl; try reflexivity; try assumption. now rewrite app_nil_r.
  - eexists. intros w2 Hs Ho. rewrite sidebar_run, Hs, Ho.
    apply world_ext; simpl; try reflexivity; assumption.
Qed.

(** X9: 'message-page' and 'sidebar' only ask.  Whether or not a store
    call fails, they leave the store, the presence set and the sockets as
    they were; and their answer depends on the store and the presence set
    only, so that asking twice in a row gives the same answer twice. *)
Theorem read_events_change_nothing sid userId ev w :
  is_read_event ev = true ->
  (forall fault,
     let w' := exec_handler verify (handler_of sid userId ev) fault w in
     store w' = store w /\ onlineUsers w' = onlineUsers w /\ sockets w' = sockets w)
  /\ exists answer,
       let once := exec_handler verify (handler_of sid userId ev) None w in
       let twice := exec_handler verify (handler_of sid userId ev) None once in
       trace once = trace w ++ answer
       /\ trace twice = trace w ++ answer ++ answer.
Proof.
  intros Hr. split.
  - intros fault. cbn zeta.
    destruct (event_handlers_presence_free sid userId ev) as [Hpb Hpr].
    assert (Hro : read_only (body (handler_of sid userId ev))
                  /\ read_only (recover (handler_of sid userId ev))).
    { destruct ev; try discriminate;
        [apply message_page_read_only | apply sidebar_read_only]. }
    destruct Hro as [Hb Hrec]. split; [now apply exec_handler_read_only |].
    unfold exec_handler.
    destruct (run_presence_free (body (handler_of sid userId ev)) fault w Hpb) as [H1 H2].
    destruct (run verify (body (handler_of sid userId ev)) fault w) as [[a|] w1]; simpl in *.
    + split; assumption.
    + destruct (run_presence_free (recover (handler_of sid userId ev)) None w1 Hpr)
        as [H3 H4].
      split; congruence.
  - destruct (read_event_run sid userId ev w Hr) as [answer Hrun].
    exists answer. cbn zeta.
    rewrite (Hrun w eq_refl eq_refl). simpl. split; [reflexivity |].
    rewrite Hrun by reflexivity. simpl. now rewrite app_assoc.
Qed.

(** ** What is pushed is what can be pulled *)

Lemma filter_single {A : Type} (f : A -> bool) (l : list A) (x : A) :
  In x l -> f x = true -> length (filter f l) <= 1 -> filter f l = [x].
Proof.
  intros Hin Hf Hlen. assert (Hx : In x (filter f l)) by (apply filter_In; now split).
  destruct (filter f l) as [|y [|z r]]; simpl in *.
  - contradiction.
  - destruct Hx as [-> | []]. reflexivity.
  - lia.
Qed.

Lemma filter_push a b i mid now (l : list Conversation) :
  filter (pair_match a b) (map (push_message i mid now) l)
  = map (push_message i mid now) (filter (pair_match a b) l).
Proof.
  induction l as [|c l IH]; simpl; [reflexivity |].
  rewrite pair_match_push. destruct (pair_match a b c); simpl; now rewrite IH.
Qed.

Lemma pair_match_swap a b c : pair_match a b c = pair_match b a c.
Proof. unfold pair_match. apply orb_comm. Qed.

Lemma findOne_none_filter s a b :
  findOneConversation s a b = None -> filter (pair_match a b) (conversations s) = [].
Proof.
  intros F. destruct (filter _ _) as [|d l] eqn:Ef; [reflexivity |].
  assert (Hd : In d (filter (pair_match a b) (conversations s))) by (rewrite Ef; now left).
  apply filter_In in Hd. destruct Hd as [Hd Hm].
  pose proof (find_none _ _ F _ Hd). congruence.
Qed.

Lemma message_lists_app (a b : list Effect) :
  message_lists (a ++ b) = message_lists a ++ message_lists b.
Proof. apply flat_map_app. Qed.

(** After a 'new message' the lookup by pair yields the conversation whose
    messages were pushed. *)
Lemma pushed_conversation_is_latest sid userId data w :
  store_ok (store w) ->
  (forall a b, rows_of_pair (store w) a b <= 1) ->
  let a := data_sender data in
  let b := data_receiver data in
  let w' := exec_handler verify (on_new_message sid userId data) None w in
  exists c msgs,
    findOneConversationLatest (store w') a b = Some (c, msgs)
    /\ message_lists (trace w') = message_lists (trace w) ++ [msgs; msgs].
Proof.
  intros (Hconv & _ & _ & Hnd & _) Hone a b. cbn zeta.
  rewrite new_message_run. fold a b. cbn zeta.
  destruct (findOneConversation (store w) a b) as [c0|] eqn:F.
  - pose proof (find_some _ _ F) as [Hin Hpm].
    set (mid := nextId (store w)).
    set (c := push_message (conv_id c0) mid (S (clock (store w))) c0).
    assert (Efind : findConversationById
                      (pushMessage (snd (saveMessage (store w) data)) (conv_id c0) mid)
                      (conv_id c0)
                    = Some (c, populate (messageDocs (store w) ++ [fst (saveMessage (store w) data)])
                                        (messages c))).
    { unfold findConversationById. simpl.
      rewrite find_map_push with (c := c0) by (now apply find_conv_unique).
      reflexivity. }
    assert (Elatest : findOneConversationLatest
                        (pushMessage (snd (saveMessage (store w) data)) (conv_id c0) mid) a b
                      = Some (c, populate (messageDocs (store w)
                                             ++ [fst (saveMessage (store w) data)])
                                          (messages c))).
    { unfold findOneConversationLatest. simpl. rewrite filter_push.
      rewrite (filter_single (pair_match a b) (conversations (store w)) c0 Hin Hpm (Hone a b)).
      reflexivity. }
    exists c, (populate (messageDocs (store w) ++ [fst (saveMessage (store w) data)])
                        (messages c)).
    simpl fst. simpl msg_id. fold mid. rewrite Efind. simpl messages_or_empty.
    split; [exact Elatest |]. simpl trace. rewrite message_lists_app. reflexivity.
  - set (cid := nextId (store w)).
    set (mid := S (nextId (store w))).
    set (c1 := mkConversation cid a b [] (clock (store w))).
    set (c := mkConversation cid a b [mid] (S (S (clock (store w))))).
    set (m := mkMessage mid (data_text data) (data_imageUrl data) (data_videoUrl data)
                        (data_msgByUserId data) false).
    assert (Hpush : push_message cid mid (S (S (clock (store w)))) c1 = c).
    { unfold push_message. simpl. now rewrite Nat.eqb_refl. }
    assert (Efind : findConversationById
                      (pushMessage (snd (saveMessage (snd (saveConversation (store w) a b)) data))
                                   cid mid) cid
                    = Some (c, populate (messageDocs (store w) ++ [m]) (messages c))).
    { unfold findConversationById. simpl.
      assert (Hfresh : find (fun x => conv_id x =? cid) (conversations (store w) ++ [c1])
                       = Some c1).
      { apply find_app_fresh with (c := c1).
        eapply Forall_impl; [| exact Hconv]. simpl. intros ? [? _]. assumption. }
      rewrite find_map_push with (c := c1) by exact Hfresh. now rewrite Hpush. }
    assert (Elatest : findOneConversationLatest
                        (pushMessage (snd (saveMessage (snd (saveConversation (store w) a b))
                                                       data)) cid mid) a b
                      = Some (c, populate (messageDocs (store w) ++ [m]) (messages c))).
    { assert (Hm : pair_match a b c1 = true) by (apply pair_match_refl; reflexivity).
      assert (Hf : filter (pair_match a b) (conversations (store w) ++ [c1]) = [c1]).
      { rewrite filter_app, (findOne_none_filter _ _ _ F).
        change (filter (pair_match a b) [c1]) with (if pair_match a b c1 then [c1] else []).
        now rewrite Hm. }
      unfold findOneConversationLatest.
      change (conversations (pushMessage
                (snd (saveMessage (snd (saveConversation (store w) a b)) data)) cid mid))
        with (map (push_message cid mid (S (S (clock (store w)))))
                  (conversations (store w) ++ [c1])).
      rewrite filter_push, Hf. simpl map. rewrite Hpush. reflexivity. }
    exists c, (populate (messageDocs (store w) ++ [m]) (messages c)).
    simpl fst. simpl msg_id. simpl conv_id. fold cid. change (S cid) with mid.
    rewrite Efind. simpl messages_or_empty.
    split; [exact Elatest |]. simpl trace. rewrite message_lists_app. reflexivity.
Qed.

Lemma findLatest_swap s a b : findOneConversationLatest s a b = findOneConversationLatest s b a.
Proof.
  unfold findOneConversationLatest.
  now rewrite (filter_ext _ _ (pair_match_swap a b)).
Qed.

Lemma message_page_lists rsid ruser target tu w :
  findUserById (store w) target = Some tu ->
  message_lists (trace (exec_handler verify (on_message_page rsid ruser target) None w))
  = message_lists (trace w)
    ++ [messages_or_empty (findOneConversationLatest (store w) ruser target)].
Proof.
  intros F. rewrite message_page_run, F. simpl. rewrite !message_lists_app. simpl.
  now rewrite app_nil_r.
Qed.

(** X10: what is pushed is what can be pulled.  In a store with at most
    one row per pair, the message list that a 'new message' event pushes
    to both rooms is the list that 'message-page' returns right after to
    either participant asking for the other. *)
Theorem pushed_messages_are_what_message_page_returns sid userId data w :
  store_ok (store w) ->
  (forall a b, rows_of_pair (store w) a b <= 1) ->
  let a := data_sender data in
  let b := data_receiver data in
  let w' := exec_handler verify (on_new_message sid userId data) None w in
  exists msgs,
    message_lists (trace w') = message_lists (trace w) ++ [msgs; msgs]
    /\ (forall rsid tu,
          findUserById (store w') b = Some tu ->
          message_lists (trace (exec_handler verify (on_message_page rsid a b) None w'))
          = message_lists (trace w') ++ [msgs])
    /\ (forall rsid tu,
          findUserById (store w') a = Some tu ->
          message_lists (trace (exec_handler verify (on_message_page rsid b a) None w'))
          = message_lists (trace w') ++ [msgs]).
Proof.
  intros Hok Hone a b w'.
  destruct (pushed_conversation_is_latest sid userId data w Hok Hone) as (c & msgs & Hl & Ht).
  fold a b w' in Hl, Ht. exists msgs. split; [exact Ht |]. split.
  - intros rsid tu F. rewrite (message_page_lists _ _ _ _ _ F), Hl. reflexivity.
  - intros rsid tu F. rewrite (message_page_lists _ _ _ _ _ F), findLatest_swap, Hl.
    reflexivity.
Qed.

(** ** The online flag of a profile *)

Lemma set_has_deleted u l : set_has u (set_delete u l) = false.
Proof.
  destruct (set_has u (set_delete u l)) eqn:E; [| reflexivity].
  apply existsb_string_In, set_delete_In in E. destruct E as [E _]. now elim E.
Qed.

Lemma set_has_added u l : set_has u (set_add u l) = true.
Proof. apply existsb_string_In, set_add_In. now left. Qed.

(** X11: the online flag of the profile that 'message-page' returns
    follows the sessions of the target: right after a session of the
    target disconnects the flag is off (even if the target has another
    open session), and right after the target connects it is on. *)
Theorem profile_online_flag_follows_sessions rsid ruser u tu w :
  findUserById (store w) u = Some tu ->
  let profile_after w1 :=
      flat_map (fun e => match e with Emitted _ _ (PUser p) => [online p] | _ => [] end)
               (skipn (length (trace w1))
                      (trace (exec_handler verify (on_message_page rsid ruser u) None w1))) in
  (forall sid fault,
     session_bound w sid u ->
     profile_after (server_step verify (Disconnect sid) fault w) = [false])
  /\ (forall sid token fault usr,
        find_socket sid w = None -> falsy token = false ->
        verify (token_string token) = Some usr -> user_id usr = u -> fault <> Some 0 ->
        profile_after (server_step verify (Connect sid token) fault w) = [true]).
Proof.
  intros F profile_after.
  assert (Hpage : forall w1 flag,
             store w1 = store w -> set_has u (onlineUsers w1) = flag ->
             profile_after w1 = [flag]).
  { intros w1 flag Hs Ho. unfold profile_after. rewrite message_page_run, Hs, F, Ho.
    simpl. rewrite <- app_assoc, skipn_app, skipn_all, Nat.sub_diag. reflexivity. }
  split.
  - intros sid fault (s & Hs & Hc & Hl). apply Hpage.
    + unfold server_step. rewrite Hs, Hc. unfold listener. rewrite Hl. reflexivity.
    + unfold server_step. rewrite Hs, Hc. unfold listener. rewrite Hl. cbn.
      apply set_has_deleted.
  - intros sid token fault usr Hfresh Hf Hv Hu Hfault.
    destruct (connect_cases sid token fault w Hfresh)
      as [([Hr | [Hr | Hr]] & _) | (u' & _ & Hv' & _ & _ & Ho & Hst & _)];
      try congruence.
    assert (u' = usr) by congruence. subst u'. apply Hpage; [exact Hst |].
    rewrite Ho, Hu. apply set_has_added.
Qed.

(** ** Rows per pair *)

Lemma find_agree {A : Type} (f g : A -> bool) (l : list A) :
  (forall x, f x = g x) -> find f l = find g l.
Proof. intros H. induction l as [|x l IH]; simpl; [reflexivity | now rewrite H, IH]. Qed.

(** X12: after a 'new message' event handled without failure the pair has
    a row, and a row is added only when the pair had none, whichever of
    the two sent first: the lookup does not depend on the direction. *)
Theorem new_message_adds_a_row_only_when_none sid userId data w :
  let a := data_sender data in
  let b := data_receiver data in
  let w' := exec_handler verify (on_new_message sid userId data) None w in
  findOneConversation (store w) a b = findOneConversation (store w) b a
  /\ rows_of_pair (store w') a b = Nat.max 1 (rows_of_pair (store w) a b)
  /\ rows_of_pair (store w') b a = rows_of_pair (store w') a b
  /\ length (conversations (store w'))
     = length (conversations (store w)) + (1 - rows_of_pair (store w) a b).
Proof.
  intros a b w'.
  assert (Hswap : forall s, rows_of_pair s b a = rows_of_pair s a b).
  { intros s. unfold rows_of_pair. now rewrite (filter_ext _ _ (pair_match_swap b a)). }
  split; [| split; [| split]].
  - unfold findOneConversation. apply find_agree. intros c. apply pair_match_swap.
  - unfold w'. rewrite new_message_run. fold a b. cbn zeta. simpl store.
    rewrite rows_of_pair_push.
    destruct (findOneConversation (store w) a b) as [c0|] eqn:F.
    + apply find_some in F. destruct F as [Hin Hpm].
      assert (Hpos : 1 <= rows_of_pair (store w) a b).
      { unfold rows_of_pair.
        assert (Hx : In c0 (filter (pair_match a b) (conversations (store w))))
          by (apply filter_In; now split).
        destruct (filter _ _); [contradiction | simpl; lia]. }
      unfold rows_of_pair at 1. simpl conversations.
      fold (rows_of_pair (store w) a b). lia.
    + unfold rows_of_pair. simpl conversations.
      rewrite filter_app, (findOne_none_filter _ _ _ F).
      change (filter (pair_match a b) [mkConversation (nextId (store w)) a b [] (clock (store w))])
        with (if pair_match a b (mkConversation (nextId (store w)) a b [] (clock (store w)))
              then [mkConversation (nextId (store w)) a b [] (clock (store w))] else []).
      rewrite pair_match_refl by reflexivity. reflexivity.
  - apply Hswap.
  - unfold w'. rewrite new_message_run. fold a b. cbn zeta. simpl store. simpl conversations.
    rewrite length_map.
    destruct (findOneConversation (store w) a b) as [c0|] eqn:F.
    + apply find_some in F. destruct F as [Hin Hpm].
      assert (Hpos : 1 <= rows_of_pair (store w) a b).
      { unfold rows_of_pair.
        assert (Hx : In c0 (filter (pair_match a b) (conversations (store w))))
          by (apply filter_In; now split).
        destruct (filter _ _); [contradiction | simpl; lia]. }
      simpl conversations. lia.
    + unfold rows_of_pair. rewrite (findOne_none_filter _ _ _ F). simpl conversations.
      rewrite length_app. simpl. lia.
Qed.

(** ** Open sockets are authenticated *)

Lemma sock_close_shape s : socket_shape verify s -> socket_shape verify (sock_close s).
Proof.
  intros [(Hc & Hr & Hl) | (token & u & Hv & Hl & _)].
  - left. repeat split; assumption.
  - right. exists token, u. split; [exact Hv |]. split; [exact Hl |].
    right. split; reflexivity.
Qed.

Lemma disconnect_sockets sid fault w :
  sockets (server_step verify (Disconnect sid) fault w) = sockets w
  \/ sockets (server_step verify (Disconnect sid) fault w)
     = update_socket sid sock_close (sockets w).
Proof.
  unfold server_step.
  destruct (find_socket sid w) as [s|]; [| now left].
  destruct (connected s); [| now left].
  destruct (listener "disconnect" s) as [u|]; right; reflexivity.
Qed.

Lemma socket_shape_step i fault w :
  Forall (socket_shape verify) (sockets w) ->
  Forall (socket_shape verify) (sockets (server_step verify i fault w)).
Proof.
  intros Hinv. destruct i as [sid token | sid ev | sid].
  - destruct (find_socket sid w) as [s|] eqn:Hfind.
    + unfold server_step. rewrite Hfind. exact Hinv.
    + destruct (connect_cases sid token fault w Hfind)
        as [(_ & Hs & _) | (u & _ & Hv & _ & Hs & _)];
        rewrite Hs; apply Forall_app; (split; [exact Hinv |]);
        (apply Forall_cons; [| apply Forall_nil]).
      * left. repeat split.
      * right. exists (token_string token), u. split; [exact Hv |].
        split; [reflexivity |]. left. split; reflexivity.
  - destruct (receive_outcome sid ev fault w) as [Hs _]. now rewrite Hs.
  - destruct (disconnect_sockets sid fault w) as [-> | ->]; [exact Hinv |].
    unfold update_socket. rewrite Forall_map. eapply Forall_impl; [| exact Hinv].
    simpl. intros s Hs. destruct (sock_id s =? sid); [now apply sock_close_shape | exact Hs].
Qed.

(** X13: at every moment of every run, with any store failures, a socket
    is open only if the verifier vouched for it: every open socket has
    joined exactly the room of an identity that the verifier yielded for
    some token, and carries the five listeners closed over that identity;
    a closed socket is in no room, and a refused one has no listener. *)
Theorem open_sockets_are_authenticated us inputs :
  let w := server_run verify inputs (initial_world us) in
  Forall (socket_shape verify) (sockets w)
  /\ (forall s, In s (sockets w) -> connected s = true ->
                exists token u,
                  verify token = Some u
                  /\ rooms s = [user_id u]
                  /\ listeners s = registered (user_id u)
                  /\ bound_identity s = Some (user_id u))
  /\ (forall s, In s (sockets w) -> connected s = false -> rooms s = []).
Proof.
  assert (H : forall w, Forall (socket_shape verify) (sockets w) ->
                        Forall (socket_shape verify) (sockets (server_run verify inputs w))).
  { induction inputs as [|[i f] inputs IH]; intros w Hinv; simpl.
    - exact Hinv.
    - apply IH. now apply socket_shape_step. }
  cbn zeta.
  assert (Hs : Forall (socket_shape verify)
                      (sockets (server_run verify inputs (initial_world us)))).
  { apply H. constructor. }
  split; [exact Hs |]. rewrite Forall_forall in Hs. split.
  - intros s Hin Hc.
    destruct (Hs s Hin) as [(Hc' & _) | (token & u & Hv & Hl & [[_ Hr] | [Hc' _]])];
      try congruence.
    exists token, u. repeat split; try assumption.
    unfold bound_identity, listener. now rewrite Hc, Hl.
  - intros s Hin Hc.
    destruct (Hs s Hin) as [(_ & Hr & _) | (token & u & _ & _ & [[Hc' _] | [_ Hr]])];
      congruence.
Qed.

(** ** Answers about an empty history, marks without a notice *)

(** X14: 'message-page' for a target that exists but has no conversation
    with the session's identity still answers: the profile, then a
    'message' event with the empty list (the fallback of line 76). *)
Theorem message_page_without_conversation_returns_empty_list sid userId target tu w :
  findUserById (store w) target = Some tu ->
  rows_of_pair (store w) userId target = 0 ->
  trace (exec_handler verify (on_message_page sid userId target) None w)
  = trace w ++
      [Emitted (ToSocket sid) "message-user"
         (PUser (mkUserPayload (user_id tu) (name tu) (email tu) (profile_pic tu)
                               (set_has target (onlineUsers w))));
       Emitted (ToSocket sid) "message" (PMessages [])].
Proof.
  intros F Hrows. rewrite message_page_run, F. simpl.
  assert (Hnone : findOneConversationLatest (store w) userId target = None).
  { unfold findOneConversationLatest. unfold rows_of_pair in Hrows.
    destruct (filter (pair_match userId target) (conversations (store w)));
      [reflexivity | discriminate]. }
  rewrite Hnone. simpl. now rewrite <- app_assoc.
Qed.

(** X15: the marks of 'seen' are not undone when the summaries cannot be
    computed afterwards: if one of the two getConversation calls fails,
    the messages of the peer are marked seen all the same, and neither
    room is told. *)
Theorem seen_marks_stay_when_summaries_fail sid userId targetUserId n w :
  n = 2 \/ n = 3 ->
  let ids := conversation_message_ids (store w) userId targetUserId in
  let w' := exec_handler verify (on_seen sid userId targetUserId) (Some n) w in
  store w' = snd (updateManySeen (store w) ids targetUserId)
  /\ Forall2 (marked_seen ids targetUserId) (messageDocs (store w)) (messageDocs (store w'))
  /\ emissions (trace w') = emissions (trace w).
Proof.
  intros Hn ids w'.
  assert (E : store w' = snd (updateManySeen (store w) ids targetUserId)
              /\ emissions (trace w') = emissions (trace w)).
  { unfold w', ids, exec_handler, on_seen, conversation_message_ids. cbn.
    destruct Hn as [-> | ->]; cbn; rewrite !emissions_app; simpl; rewrite !app_nil_r;
      split; reflexivity. }
  destruct E as [Es Ee]. split; [exact Es |]. split; [| exact Ee].
  rewrite Es. apply updateMany_docs.
Qed.

(** ** Two first messages in flight *)


End Properties.

(** * The theorems at concrete inputs *)

(** A connection without a token on a fresh socket of [demo_connected]. *)
Lemma unauthenticated_connection_closed_witness :
  find_socket 7 demo_connected = None
  /\ falsy None = true
  /\ let w' := server_step demo_verifier (Connect 7 None) None demo_connected in
     sockets w' = sockets demo_connected ++ [mkSocket 7 false [] []]
     /\ onlineUsers w' = onlineUsers demo_connected
     /\ emissions (trace w') = emissions (trace demo_connected)
     /\ store w' = store demo_connected
     /\ bound_identities w' = bound_identities demo_connected.
Proof.
  split; [vm_compute; reflexivity |]. split; [reflexivity |].
  apply (unauthenticated_connection_closed demo_verifier 7 None None demo_connected).
  - vm_compute. reflexivity.
  - left. reflexivity.
Defined.



Lemma demo_chat_ok : store_ok (store demo_chat).
Proof. settle_store_ok. Defined.

Lemma demo_two_chats_ok : store_ok (store demo_two_chats).
Proof. settle_store_ok. Defined.

(** A sends "hi" to B once more in [demo_chat]. *)
Lemma new_message_persists_then_fans_out_witness :
  store_ok (store demo_chat)
  /\ let a := data_sender hi_from_A in
     let b := data_receiver hi_from_A in
     let w' := exec_handler demo_verifier (on_new_message 1 "A" hi_from_A) None demo_chat in
     exists (c : Conversation) (m : Message) (created : list Effect),
       m = mkMessage (msg_id m) (data_text hi_from_A) (data_imageUrl hi_from_A)
                     (data_videoUrl hi_from_A) (data_msgByUserId hi_from_A) false
       /\ messageDocs (store w') = messageDocs (store demo_chat) ++ [m]
       /\ pair_match a b c = true
       /\ In c (conversations (store w'))
       /\ messages c = conversation_message_ids (store demo_chat) a b ++ [msg_id m]
       /\ populate (messageDocs (store w')) (messages c)
          = populate (messageDocs (store demo_chat))
                     (conversation_message_ids (store demo_chat) a b) ++ [m]
       /\ forallb is_write created = true
       /\ trace w' = trace demo_chat ++ created ++
            [Wrote (SavedMessage (msg_id m));
             Wrote (PushedMessage (conv_id c) (msg_id m));
             Emitted (ToRoom a) "message"
               (PMessages (populate (messageDocs (store w')) (messages c)));
             Emitted (ToRoom b) "message"
               (PMessages (populate (messageDocs (store w')) (messages c)));
             Emitted (ToRoom a) "conversation"
               (PConversations (getConversation (store w') (onlineUsers w') a));
             Emitted (ToRoom b) "conversation"
               (PConversations (getConversation (store w') (onlineUsers w') b))].
Proof.
  split; [exact demo_chat_ok |].
  apply (new_message_persists_then_fans_out demo_verifier 1 "A" hi_from_A demo_chat).
  exact demo_chat_ok.
Defined.

(** The save of the message fails while A sends "hi" to B. *)
Lemma store_failure_stops_handler_witness :
  let h := handler_of 1 "A" (NewMessageEvent hi_from_A) in
  fst (run demo_verifier (body h) (Some 2) demo_connected) = Threw
  /\ fails_before_emitting (NewMessageEvent hi_from_A) 2 = true
  /\ emissions (trace (exec_handler demo_verifier h (Some 2) demo_connected))
     = emissions (trace demo_connected)
  /\ onlineUsers (exec_handler demo_verifier h (Some 2) demo_connected)
     = onlineUsers demo_connected
  /\ sockets (exec_handler demo_verifier h (Some 2) demo_connected)
     = sockets demo_connected.
Proof.
  cbv zeta.
  assert (Hthrew : fst (run demo_verifier (body (handler_of 1 "A" (NewMessageEvent hi_from_A)))
                            (Some 2) demo_connected) = Threw) by (vm_compute; reflexivity).
  pose proof (store_failure_stops_handler demo_verifier 1 "A" (NewMessageEvent hi_from_A) 2
                                          demo_connected Hthrew) as H.
  cbv zeta in H. destruct H as (_ & _ & Hon & Hsock & Hnone).
  split; [exact Hthrew |]. split; [reflexivity |].
  split; [apply Hnone; reflexivity |]. split; [exact Hon | exact Hsock].
Defined.

(** The re-computation of the summaries fails while A sends "hi" to B:
    the 'message' events have gone out to both rooms, the 'conversation'
    events have not, so the event's emissions are neither all made nor all
    absent.  Likewise when the conversation lookup of 'message-page'
    fails after the profile has been emitted. *)
Lemma store_failure_partial_fan_out :
  let h := on_new_message 1 "A" hi_from_A in
  let w' := exec_handler demo_verifier h (Some 5) demo_connected in
  let w_ok := exec_handler demo_verifier h None demo_connected in
  let page := on_message_page 1 "A" "B" in
  fst (run demo_verifier (body h) (Some 5) demo_connected) = Threw
  /\ emission_heads (trace w')
     = emission_heads (trace demo_connected)
       ++ [(ToRoom "A", "message"); (ToRoom "B", "message")]
  /\ emission_heads (trace w_ok)
     = emission_heads (trace demo_connected)
       ++ [(ToRoom "A", "message"); (ToRoom "B", "message");
           (ToRoom "A", "conversation"); (ToRoom "B", "conversation")]
  /\ ~ (emissions (trace w') = emissions (trace demo_connected)
        \/ emissions (trace w') = emissions (trace w_ok))
  /\ fst (run demo_verifier (body page) (Some 1) demo_connected) = Threw
  /\ emission_heads (trace (exec_handler demo_verifier page (Some 1) demo_connected))
     = emission_heads (trace demo_connected) ++ [(ToSocket 1, "message-user")]
  /\ emission_heads (trace (exec_handler demo_verifier page None demo_connected))
     = emission_heads (trace demo_connected)
       ++ [(ToSocket 1, "message-user"); (ToSocket 1, "message")].
Proof.
  cbv zeta. split; [vm_compute; reflexivity |]. split; [vm_compute; reflexivity |].
  split; [vm_compute; reflexivity |]. split.
  - intros [H | H]; apply (f_equal (@length Effect)) in H; vm_compute in H; discriminate H.
  - repeat split; vm_compute; reflexivity.
Qed.

(** 'message-page' in [demo_connected] for an unknown target and for B. *)
Lemma message_page_missing_target_emits_nothing_witness :
  (findUserById (store demo_connected) "Z" = None
   /\ emissions (trace (exec_handler demo_verifier (on_message_page 1 "A" "Z") None
                                     demo_connected))
      = emissions (trace demo_connected))
  /\ (findUserById (store demo_connected) "B" = Some (select_no_password bob)
      /\ emission_heads (trace (exec_handler demo_verifier (on_message_page 1 "A" "B") None
                                             demo_connected))
         = emission_heads (trace demo_connected)
           ++ [(ToSocket 1, "message-user"); (ToSocket 1, "message")]).
Proof.
  assert (HZ : findUserById (store demo_connected) "Z" = None) by (vm_compute; reflexivity).
  assert (HB : findUserById (store demo_connected) "B" = Some (select_no_password bob))
    by (vm_compute; reflexivity).
  split.
  - split; [exact HZ |].
    apply (proj1 (message_page_missing_target_emits_nothing demo_verifier 1 "A" "Z"
                    demo_connected) HZ None).
  - split; [exact HB |].
    destruct (proj2 (message_page_missing_target_emits_nothing demo_verifier 1 "A" "B"
                       demo_connected) (select_no_password bob) HB) as [_ H].
    rewrite H. vm_compute. reflexivity.
Defined.



(** The runs above handle each connection to its end before the next
    input.  When a socket closes while its verification is pending, its
    'disconnect' listener is not yet registered, and the handler, once
    resumed, adds the identity of a closed socket to the presence set. *)
Example presence_after_close_during_verification :
  onlineUsers closed_while_verifying = ["A"]
  /\ bound_identities closed_while_verifying = []
  /\ map connected (sockets closed_while_verifying) = [false].
Proof. vm_compute. repeat split. Qed.

(** In [demo_two_chats] the conversation of A and B (id 0) is the older
    of A's two conversations; a message appended to it brings it to the
    front of A's list. *)
Lemma summaries_most_recent_first_witness :
  let s := store demo_two_chats in
  let c := mkConversation 0 "A" "B" [1] 2 in
  store_ok s
  /\ In c (conversations s)
  /\ involves "A" c = true
  /\ map sum_conv (getConversation s (onlineUsers demo_two_chats) "A") = [2; 0]
  /\ exists first rest,
       getConversation (pushMessage s (conv_id c) 99) (onlineUsers demo_two_chats) "A"
       = first :: rest
       /\ sum_conv first = conv_id c.
Proof.
  cbv zeta.
  assert (Hin : In (mkConversation 0 "A" "B" [1] 2) (conversations (store demo_two_chats)))
    by (vm_compute; left; reflexivity).
  split; [exact demo_two_chats_ok |]. split; [exact Hin |]. split; [vm_compute; reflexivity |].
  split; [vm_compute; reflexivity |].
  pose proof (summaries_most_recent_first demo_verifier 1 "A" "A" demo_two_chats) as H.
  cbv zeta in H. destruct H as (_ & _ & H & _).
  exact (H demo_two_chats_ok (mkConversation 0 "A" "B" [1] 2) 99 Hin eq_refl).
Defined.

(** C's session and A's session both submit A's message to B. *)
Lemma new_message_independent_of_session_witness :
  session_bound demo_connected 3 "C"
  /\ session_bound demo_connected 1 "A"
  /\ server_step demo_verifier (Receive 3 (NewMessageEvent hi_from_A)) None demo_connected
     = server_step demo_verifier (Receive 1 (NewMessageEvent hi_from_A)) None demo_connected
  /\ map msgByUserId
         (messageDocs (store (server_step demo_verifier (Receive 3 (NewMessageEvent hi_from_A))
                                          None demo_connected)))
     = ["A"].
Proof.
  assert (H3 : session_bound demo_connected 3 "C").
  { exists (mkSocket 3 true ["C"] (registered "C")). vm_compute. repeat split. }
  assert (H1 : session_bound demo_connected 1 "A").
  { exists (mkSocket 1 true ["A"] (registered "A")). vm_compute. repeat split. }
  split; [exact H3 |]. split; [exact H1 |].
  split.
  - exact (proj1 (new_message_independent_of_session demo_verifier 3 "C" 1 "A" hi_from_A
                    None demo_connected H3 H1)).
  - vm_compute. reflexivity.
Defined.

(** A marks C's messages as seen in [demo_connected], where no
    conversation exists yet. *)
Lemma seen_without_conversation_still_emits_witness :
  findOneConversation (store demo_connected) "A" "C" = None
  /\ let w' := exec_handler demo_verifier (on_seen 1 "A" "C") None demo_connected in
     store w' = store demo_connected
     /\ trace w' = trace demo_connected ++
          [Wrote (UpdatedSeen 0);
           Emitted (ToRoom "A") "conversation"
             (PConversations (getConversation (store demo_connected)
                                              (onlineUsers demo_connected) "A"));
           Emitted (ToRoom "C") "conversation"
             (PConversations (getConversation (store demo_connected)
                                              (onlineUsers demo_connected) "C"))].
Proof.
  split; [vm_compute; reflexivity |].
  apply (seen_without_conversation_still_emits demo_verifier 1 "A" "C" demo_connected).
  vm_compute. reflexivity.
Defined.

(** * The further properties at concrete inputs *)

Lemma demo_connected_ok : store_ok (store demo_connected).
Proof. settle_store_ok. Qed.

Lemma demo_chat_one_row a b : rows_of_pair (store demo_chat) a b <= 1.
Proof.
  unfold rows_of_pair.
  assert (H : length (conversations (store demo_chat)) = 1) by (vm_compute; reflexivity).
  rewrite <- H. apply filter_length_le.
Qed.

(** A connects on a fresh socket of [demo_connected]. *)
Lemma accepted_connection_binds_session_witness :
  find_socket 7 demo_connected = None
  /\ falsy (Some "token-A") = false
  /\ demo_verifier (token_string (Some "token-A")) = Some alice
  /\ session_bound (server_step demo_verifier (Connect 7 (Some "token-A")) None demo_connected)
                   7 "A"
  /\ In "A" (onlineUsers (server_step demo_verifier (Connect 7 (Some "token-A")) None
                                      demo_connected)).
Proof.
  assert (Hfresh : find_socket 7 demo_connected = None) by (vm_compute; reflexivity).
  assert (Hne : @None nat <> Some 0) by discriminate.
  pose proof (accepted_connection_binds_session demo_verifier 7 (Some "token-A") None alice
                demo_connected Hfresh eq_refl eq_refl Hne) as H.
  cbv zeta in H. destruct H as (Hb & _ & Hin & _).
  split; [exact Hfresh |]. split; [reflexivity |]. split; [reflexivity |].
  split; [exact Hb | exact Hin].
Defined.

(** B's session disconnects in [demo_connected]. *)
Lemma disconnect_broadcasts_presence_witness :
  session_bound demo_connected 2 "B"
  /\ let w' := server_step demo_verifier (Disconnect 2) None demo_connected in
     onlineUsers w' = set_delete "B" (onlineUsers demo_connected)
     /\ ~ In "B" (onlineUsers w')
     /\ store w' = store demo_connected
     /\ trace w' = trace demo_connected ++
          [Logged "User disconnected";
           Emitted ToAll "onlineUser" (POnlineUsers (onlineUsers w'))].
Proof.
  assert (Hb : session_bound demo_connected 2 "B").
  { exists (mkSocket 2 true ["B"] (registered "B")). vm_compute. repeat split. }
  split; [exact Hb |].
  exact (disconnect_broadcasts_presence demo_verifier 2 "B" None demo_connected Hb).
Defined.

(** A connection without a token on a fresh socket of [demo_connected],
    which then sends 'new message'. *)
Lemma refused_socket_is_inert_witness :
  find_socket 7 demo_connected = None
  /\ falsy None = true
  /\ let w' := server_step demo_verifier (Connect 7 None) None demo_connected in
     server_step demo_verifier (Receive 7 (NewMessageEvent hi_from_A)) None w' = w'.
Proof.
  assert (Hfresh : find_socket 7 demo_connected = None) by (vm_compute; reflexivity).
  split; [exact Hfresh |]. split; [reflexivity |].
  pose proof (refused_socket_is_inert demo_verifier 7 None None demo_connected Hfresh
                (or_introl eq_refl)) as H.
  cbv zeta in H. destruct H as [H _]. exact (H (NewMessageEvent hi_from_A) None).
Defined.

(** A sends the first message to B in [demo_connected] and a write
    fails. *)
Lemma new_message_failure_keeps_earlier_writes_witness :
  store_ok (store demo_connected)
  /\ findOneConversation (store demo_connected) "A" "B" = None
  /\ (let w' := exec_handler demo_verifier (on_new_message 1 "A" hi_from_A) (Some 2)
                             demo_connected in
      conversations (store w') = [mkConversation 0 "A" "B" [] 0]
      /\ messageDocs (store w') = []
      /\ emissions (trace w') = emissions (trace demo_connected))
  /\ (let w' := exec_handler demo_verifier (on_new_message 1 "A" hi_from_A)
                             (Some (push_call (store demo_connected) hi_from_A))
                             demo_connected in
      exists m,
        messageDocs (store w') = messageDocs (store demo_connected) ++ [m]
        /\ msgByUserId m = "A"
        /\ text m = Some "hi"
        /\ Forall (fun c => ~ In (msg_id m) (messages c)) (conversations (store w'))
        /\ emissions (trace w') = emissions (trace demo_connected)).
Proof.
  assert (Hnone : findOneConversation (store demo_connected) "A" "B" = None)
    by (vm_compute; reflexivity).
  pose proof (new_message_failure_keeps_earlier_writes demo_verifier 1 "A" hi_from_A
                demo_connected demo_connected_ok) as H.
  cbv zeta in H. destruct H as [H1 H2].
  split; [exact demo_connected_ok |]. split; [exact Hnone |]. split.
  - exact (H1 Hnone).
  - exact H2.
Defined.

(** 'sidebar' for A in [demo_chat]. *)
Lemma read_events_change_nothing_witness :
  is_read_event (Sidebar "A") = true
  /\ (forall fault,
        let w' := exec_handler demo_verifier (handler_of 1 "A" (Sidebar "A")) fault demo_chat in
        store w' = store demo_chat /\ onlineUsers w' = onlineUsers demo_chat
        /\ sockets w' = sockets demo_chat).
Proof.
  split; [reflexivity |].
  exact (proj1 (read_events_change_nothing demo_verifier 1 "A" (Sidebar "A") demo_chat
                  eq_refl)).
Defined.

(** A sends "hi" to B in [demo_chat]; B then opens the conversation. *)
Lemma pushed_messages_are_what_message_page_returns_witness :
  store_ok (store demo_chat)
  /\ (forall a b, rows_of_pair (store demo_chat) a b <= 1)
  /\ let w' := exec_handler demo_verifier (on_new_message 1 "A" hi_from_A) None demo_chat in
     findUserById (store w') "A" = Some (select_no_password alice)
     /\ exists msgs,
          message_lists (trace w') = message_lists (trace demo_chat) ++ [msgs; msgs]
          /\ message_lists (trace (exec_handler demo_verifier (on_message_page 2 "B" "A") None
                                                w'))
             = message_lists (trace w') ++ [msgs].
Proof.
  split; [exact demo_chat_ok |]. split; [exact demo_chat_one_row |].
  assert (HA : findUserById
                 (store (exec_handler demo_verifier (on_new_message 1 "A" hi_from_A) None
                                      demo_chat)) "A" = Some (select_no_password alice))
    by (vm_compute; reflexivity).
  split; [exact HA |].
  destruct (pushed_messages_are_what_message_page_returns demo_verifier 1 "A" hi_from_A
              demo_chat demo_chat_ok demo_chat_one_row) as (msgs & Hpush & _ & Hpull).
  exists msgs. split; [exact Hpush |]. exact (Hpull 2 (select_no_password alice) HA).
Defined.

(** C asks for B's profile after B's session has disconnected, and after
    B has connected once more. *)
Lemma profile_online_flag_follows_sessions_witness :
  findUserById (store demo_connected) "B" = Some (select_no_password bob)
  /\ session_bound demo_connected 2 "B"
  /\ find_socket 7 demo_connected = None
  /\ (let w1 := server_step demo_verifier (Disconnect 2) None demo_connected in
      flat_map (fun e => match e with Emitted _ _ (PUser p) => [online p] | _ => [] end)
               (skipn (length (trace w1))
                      (trace (exec_handler demo_verifier (on_message_page 3 "C" "B") None w1)))
      = [false])
  /\ (let w1 := server_step demo_verifier (Connect 7 (Some "token-B")) None demo_connected in
      flat_map (fun e => match e with Emitted _ _ (PUser p) => [online p] | _ => [] end)
               (skipn (length (trace w1))
                      (trace (exec_handler demo_verifier (on_message_page 3 "C" "B") None w1)))
      = [true]).
Proof.
  assert (HB : findUserById (store demo_connected) "B" = Some (select_no_password bob))
    by (vm_compute; reflexivity).
  assert (Hb : session_bound demo_connected 2 "B").
  { exists (mkSocket 2 true ["B"] (registered "B")). vm_compute. repeat split. }
  assert (Hfresh : find_socket 7 demo_connected = None) by (vm_compute; reflexivity).
  assert (Hne : @None nat <> Some 0) by discriminate.
  pose proof (profile_online_flag_follows_sessions demo_verifier 3 "C" "B"
                (select_no_password bob) demo_connected HB) as H.
  cbv zeta in H. destruct H as [Hoff Hon].
  split; [exact HB |]. split; [exact Hb |]. split; [exact Hfresh |]. split.
  - exact (Hoff 2 None Hb).
  - exact (Hon 7 (Some "token-B") None bob Hfresh eq_refl eq_refl eq_refl Hne).
Defined.

(** A opens the conversation with C in [demo_connected], where they have
    none. *)
Lemma message_page_without_conversation_returns_empty_list_witness :
  findUserById (store demo_connected) "C" = Some (select_no_password carol)
  /\ rows_of_pair (store demo_connected) "A" "C" = 0
  /\ message_lists (trace (exec_handler demo_verifier (on_message_page 1 "A" "C") None
                                        demo_connected))
     = message_lists (trace demo_connected) ++ [[]].
Proof.
  assert (HC : findUserById (store demo_connected) "C" = Some (select_no_password carol))
    by (vm_compute; reflexivity).
  assert (Hrows : rows_of_pair (store demo_connected) "A" "C" = 0) by (vm_compute; reflexivity).
  split; [exact HC |]. split; [exact Hrows |].
  rewrite (message_page_without_conversation_returns_empty_list demo_verifier 1 "A" "C"
             (select_no_password carol) demo_connected HC Hrows).
  vm_compute. reflexivity.
Defined.

(** A marks B's messages in [demo_chat] and the first getConversation
    fails. *)
Lemma seen_marks_stay_when_summaries_fail_witness :
  let w' := exec_handler demo_verifier (on_seen 1 "A" "B") (Some 2) demo_chat in
  map seen (messageDocs (store demo_chat)) = [false; false]
  /\ map seen (messageDocs (store w')) = [false; true]
  /\ emissions (trace w') = emissions (trace demo_chat).
Proof.
  cbv zeta.
  pose proof (seen_marks_stay_when_summaries_fail demo_verifier 1 "A" "B" 2 demo_chat
                (or_introl eq_refl)) as H.
  cbv zeta in H. destruct H as (_ & _ & He).
  split; [vm_compute; reflexivity |]. split; [vm_compute; reflexivity | exact He].
Defined.

